(** * notes.py: notes, note collections, chords and the chord registry

    A shallow embedding of [src/notes.py] and the properties of its
    classes [Note], [NoteCollection], [Chord] and [Chords].

    Conventions of the embedding.
    - Python strings are [string]s of ASCII characters, compared by
      character code as Python compares code points.
    - A method that can raise returns a [result]; a method that mutates
      [self] returns the new object next to its [result].
    - The number returned by [Note.get_index] is an [int] or a [float]
      that is an exact multiple of one half; it is a rational [Q] here and
      Python's numeric [==] and [<] are [Qeq_bool] and [Py.lt].
    - The builtin [hash] of the tuple [(note, sharpness)] belongs to the
      interpreter, not to the program: it is a parameter [py_hash] of
      everything that hashes a [Note].
    - Object identity is not part of the model.  List and set membership
      test [x is y] before [x == y]; for a [Note] the two differ only when
      [get_index] raises (an empty name), where the model reports the
      [IndexError] of the comparison.
    - [NoteCollection.get_content] only reads the collection to build a
      text and is left out. *)

From Stdlib Require Import Ascii QArith.
From stdpp Require Import base list strings gmap sets sorting.

Local Open Scope string_scope.
Local Open Scope list_scope.

(** ** Exceptions and results *)

Inductive exn : Set :=
| IndexError
| TypeError
| DuplicateNoteNamesException
| ChordOverlapException.

Inductive result (A : Type) : Type :=
| Ok (a : A)
| Raise (e : exn).

Arguments Ok {A} a.
Arguments Raise {A} e.

Definition bind {A B : Type} (m : result A) (k : A -> result B) : result B :=
  match m with
  | Ok a => k a
  | Raise e => Raise e
  end.

Notation "'let!' x ':=' m 'in' k" := (bind m (fun x => k))
  (at level 10, x name, m at level 100, k at level 200).

(** ** The builtins the program calls *)

Module Py.

(** [string.ascii_uppercase]. *)
Definition ascii_uppercase : string := "ABCDEFGHIJKLMNOPQRSTUVWXYZ".

Definition code (c : ascii) : nat := nat_of_ascii c.

Definition is_lower (c : ascii) : bool :=
  (97 <=? code c)%nat && (code c <=? 122)%nat.

Definition is_upper (c : ascii) : bool :=
  (65 <=? code c)%nat && (code c <=? 90)%nat.

Definition upper (c : ascii) : ascii :=
  if is_lower c then ascii_of_nat (code c - 32) else c.

Definition lower (c : ascii) : ascii :=
  if is_upper c then ascii_of_nat (code c + 32) else c.

Fixpoint lower_all (s : string) : string :=
  match s with
  | EmptyString => EmptyString
  | String c r => String (lower c) (lower_all r)
  end.

(** [s.capitalize()]: first character upper-cased, the others lower-cased. *)
Definition capitalize (s : string) : string :=
  match s with
  | EmptyString => EmptyString
  | String c r => String (upper c) (lower_all r)
  end.

(** [s.find(c)] for a one-character needle: the first index, or [-1]. *)
Fixpoint find_from (i : Z) (s : string) (c : ascii) : Z :=
  match s with
  | EmptyString => (-1)%Z
  | String d r => if Ascii.eqb d c then i else find_from (i + 1)%Z r c
  end.

Definition find (s : string) (c : ascii) : Z := find_from 0%Z s c.

(** [x < y] on numbers. *)
Definition lt (x y : Q) : bool := negb (Qle_bool y x).

(** [sub in s] on strings: [sub] occurs in [s] as a contiguous run. *)
Fixpoint str_in (sub s : string) : bool :=
  String.prefix sub s
  || match s with
     | EmptyString => false
     | String _ r => str_in sub r
     end.

(** The order of [sorted] on the keys [(x.note, x.sharpness)]: tuples
    compare lexicographically, strings by character code. *)
Definition key_le (a b : string * string) : bool :=
  match String.compare (fst a) (fst b) with
  | Lt => true
  | Gt => false
  | Eq => String.leb (snd a) (snd b)
  end.

Section Sorted.
Context {A : Type} (key : A -> string * string).

(** [x] goes after every element whose key is not greater: the sort is
    stable, as [sorted] is. *)
Fixpoint insert_sorted (x : A) (l : list A) : list A :=
  match l with
  | [] => [x]
  | y :: r => if key_le (key y) (key x) then y :: insert_sorted x r
              else x :: y :: r
  end.

Definition sorted (l : list A) : list A :=
  fold_left (fun acc x => insert_sorted x acc) l [].
End Sorted.

(** The line feed, written [\n] in the source. *)
Definition newline : string := String "010"%char EmptyString.

(** [c.isspace()] on an ASCII character: tab, line feed, vertical tab,
    form feed, carriage return, the four separators 28 to 31, space. *)
Definition is_space (c : ascii) : bool :=
  (9 <=? code c)%nat && (code c <=? 13)%nat
  || (28 <=? code c)%nat && (code c <=? 32)%nat.

Fixpoint lstrip (s : string) : string :=
  match s with
  | EmptyString => EmptyString
  | String c r => if is_space c then lstrip r else s
  end.

Fixpoint rstrip (s : string) : string :=
  match s with
  | EmptyString => EmptyString
  | String c r =>
      match rstrip r with
      | EmptyString => if is_space c then EmptyString else String c EmptyString
      | r' => String c r'
      end
  end.

(** [s.strip()]: the white space at both ends removed. *)
Definition strip (s : string) : string := rstrip (lstrip s).

End Py.

(** ** class Note *)

Module Note.

Record t : Set := mk { note : string; sharpness : string }.

(** [Note.__init__(self, note)] *)
Definition __init__ (s : string) : t :=
  {| note := Py.capitalize s; sharpness := "" |}.

(** [Note.get_index(self)].  [self.note[0]] raises [IndexError] on the
    empty string. *)
Definition get_index (self : t) : result Q :=
  match note self with
  | EmptyString => Raise IndexError
  | String c0 rest =>
      let position := inject_Z (Py.find Py.ascii_uppercase c0) in
      match rest with
      | EmptyString => Ok position
      | String c1 _ =>
          let position :=
            if Ascii.eqb c1 "#" then (position + (1 # 2))%Q
            else if Ascii.eqb c1 "b" then (position - (1 # 2))%Q
            else position in
          let position :=
            if Py.lt position 0 then (position + 26)%Q else position in
          Ok position
      end
  end.

(** [Note.__eq__(self, other)] for [other] a [Note]. *)
Definition __eq__ (self other : t) : result bool :=
  let! a := get_index self in
  let! b := get_index other in
  Ok (Qeq_bool a b && Py.str_in (sharpness self) (sharpness other)).

(** [Note.__hash__(self)] *)
Definition __hash__ (py_hash : string * string -> Z) (self : t) : Z :=
  py_hash (note self, sharpness self).

(** [Note.__repr__(self)] *)
Definition __repr__ (self : t) : string :=
  "<Note: " +:+ note self +:+ sharpness self +:+ ">".

End Note.

(** ** Python containers of notes *)

(** [x in l] for a list [l]: the items are compared in order, the item
    on the left of [==], until one is equal. *)
Fixpoint list_contains (l : list Note.t) (x : Note.t) : result bool :=
  match l with
  | [] => Ok false
  | item :: r =>
      let! b := Note.__eq__ item x in
      if b then Ok true else list_contains r x
  end.

(** [[one, two, three] if three else [one, two]]: a [Note] defines
    neither [__bool__] nor [__len__], so it is true as a condition and the
    test asks whether the optional third note was given. *)
Definition two_or_three (one two : Note.t) (three : option Note.t)
  : list Note.t :=
  match three with
  | Some n3 => [one; two; n3]
  | None => [one; two]
  end.

(** A [set] of notes.  The model keeps the entries in insertion order.
    An entry matches a key when the two hashes are equal and the entry
    [==] the key (the entry on the left).  The order in which the hash
    table is probed shows only in which comparison raises first. *)
Module PySet.
Section WithHash.
Variable py_hash : string * string -> Z.

Definition t : Set := list Note.t.

Definition matches (entry key : Note.t) : result bool :=
  if (Note.__hash__ py_hash entry =? Note.__hash__ py_hash key)%Z
  then Note.__eq__ entry key
  else Ok false.

(** [key in table] *)
Fixpoint contains (table : t) (key : Note.t) : result bool :=
  match table with
  | [] => Ok false
  | entry :: r =>
      let! b := matches entry key in
      if b then Ok true else contains r key
  end.

(** [table.add(key)] *)
Definition add (table : t) (key : Note.t) : result t :=
  let! b := contains table key in
  Ok (if b then table else table ++ [key]).

Fixpoint add_all (table : t) (l : list Note.t) : result t :=
  match l with
  | [] => Ok table
  | x :: r => let! table' := add table x in add_all table' r
  end.

(** [set(l)] *)
Definition of_list (l : list Note.t) : result t := add_all [] l.

(** every entry of [a] is in [b] *)
Fixpoint issubset (a b : t) : result bool :=
  match a with
  | [] => Ok true
  | x :: r =>
      let! found := contains b x in
      if found then issubset r b else Ok false
  end.

(** [a == b]: same number of entries, and [a] a subset of [b]. *)
Definition eq (a b : t) : result bool :=
  if (length a =? length b)%nat then issubset a b else Ok false.
End WithHash.
End PySet.

(** ** class NoteCollection *)

Module NoteCollection.

Record t : Set := mk { notes : list Note.t }.

(** [NoteCollection.__init__(self)] *)
Definition __init__ : t := {| notes := [] |}.

(** [NoteCollection.add(self, note)].  The argument is a [Note] by its
    type, so the [TypeError] branch is not reachable. *)
Definition add (self : t) (note : Note.t) : t * result unit :=
  match list_contains (notes self) note with
  | Raise e => (self, Raise e)
  | Ok true => (self, Ok tt)
  | Ok false => ({| notes := notes self ++ [note] |}, Ok tt)
  end.

(** The loop of [pop]: [seen] are the items before the current one. *)
Fixpoint pop_loop (seen rest : list Note.t) (probe : Note.t)
  : list Note.t * result (option Note.t) :=
  match rest with
  | [] => (seen, Ok None)
  | n :: r =>
      match Note.__eq__ n probe with
      | Raise e => (seen ++ rest, Raise e)
      | Ok true => (seen ++ r, Ok (Some n))
      | Ok false => pop_loop (seen ++ [n]) r probe
      end
  end.

(** [NoteCollection.pop(self, note)] *)
Definition pop (self : t) (note : string) : t * result (option Note.t) :=
  let (l, r) := pop_loop [] (notes self) (Note.__init__ note) in
  ({| notes := l |}, r).

(** [NoteCollection.extract(self)] *)
Definition extract (self : t) : t * list Note.t :=
  ({| notes := [] |}, notes self).

(** The first loop of [get_content]: the notes of [sorted_notes] not yet
    in [unique_notes] are appended to it, in order. *)
Fixpoint unique_loop (unique_notes sorted_notes : list Note.t)
  : result (list Note.t) :=
  match sorted_notes with
  | [] => Ok unique_notes
  | note :: r =>
      let! found := list_contains unique_notes note in
      unique_loop (if found then unique_notes else unique_notes ++ [note]) r
  end.

(** The second loop of [get_content]: one line per note. *)
Fixpoint render_loop (content : string) (unique_notes : list Note.t) : string :=
  match unique_notes with
  | [] => content
  | note :: r =>
      render_loop
        (content +:+ "  * " +:+ Note.note note +:+ Note.sharpness note
                 +:+ Py.newline) r
  end.

(** [NoteCollection.get_content(self)] *)
Definition get_content (self : t) : result string :=
  let content := "Notes:" +:+ Py.newline in
  let sorted_notes :=
    Py.sorted (fun x => (Note.note x, Note.sharpness x)) (notes self) in
  let! unique_notes := unique_loop [] sorted_notes in
  match unique_notes with
  | [] => Ok (content +:+ "  Empty.")
  | _ => Ok (Py.strip (render_loop content unique_notes))
  end.

End NoteCollection.

(** ** class Chord *)

Module Chord.

Record t : Set := mk { notes : list Note.t; chord_name : string }.

Definition sort_key (x : Note.t) : string * string :=
  (Note.note x, Note.sharpness x).

(** [Chord.__init__(self, note_one, note_two, chord_name, note_three)] *)
Definition __init__ (note_one note_two : Note.t) (chord_name : string)
    (note_three : option Note.t) : result t :=
  let notes := two_or_three note_one note_two note_three in
  let note_names := map Note.note notes in
  if negb (size (list_to_set note_names : gset string) =? length notes)%nat
     || negb (size (list_to_set (note_names ++ [chord_name]) : gset string)
              =? length note_names + 1)%nat
  then Raise DuplicateNoteNamesException
  else Ok {| notes := Py.sorted sort_key notes; chord_name := chord_name |}.

(** [Chord.__repr__(self)] *)
Definition __repr__ (self : t) : string :=
  "<Chord: " +:+ chord_name self +:+ ">".

(** [set(self.notes) == set(other.notes)], the comparison of
    [Chord.__eq__] and of the loop of [Chords.add]. *)
Definition __eq__ (py_hash : string * string -> Z) (self other : t)
  : result bool :=
  let! a := PySet.of_list py_hash (notes self) in
  let! b := PySet.of_list py_hash (notes other) in
  PySet.eq py_hash a b.

End Chord.

(** ** class Chords *)

Module Chords.

Record t : Set := mk { chords : list Chord.t }.

(** [Chords.__init__(self)] *)
Definition __init__ : t := {| chords := [] |}.

(** The loop of [add] over the registered chords. *)
Fixpoint add_loop (py_hash : string * string -> Z)
    (existing : list Chord.t) (chord : Chord.t) : result unit :=
  match existing with
  | [] => Ok tt
  | existing_chord :: r =>
      let! same := Chord.__eq__ py_hash existing_chord chord in
      if same then Raise ChordOverlapException
      else add_loop py_hash r chord
  end.

(** [Chords.add(self, chord)] *)
Definition add (py_hash : string * string -> Z) (self : t) (chord : Chord.t)
  : t * result unit :=
  match add_loop py_hash (chords self) chord with
  | Raise e => (self, Raise e)
  | Ok _ => ({| chords := chords self ++ [chord] |}, Ok tt)
  end.

(** [x or y] on strings: the empty string is false. *)
Definition str_or (x y : string) : string :=
  match x with
  | EmptyString => y
  | _ => x
  end.

(** [{f"{note.note}{note.sharpness or ''}" for note in l}] *)
Definition note_names_set (l : list Note.t) : gset string :=
  list_to_set (map (fun n => Note.note n +:+ str_or (Note.sharpness n) "") l).

Fixpoint get_loop (input_note_names_set : gset string) (l : list Chord.t)
  : option Chord.t :=
  match l with
  | [] => None
  | chord :: r =>
      if bool_decide (input_note_names_set = note_names_set (Chord.notes chord))
      then Some chord
      else get_loop input_note_names_set r
  end.

(** [Chords.get(self, first_note, second_note, third_note)] *)
Definition get (self : t) (first_note second_note : Note.t)
    (third_note : option Note.t) : option Chord.t :=
  let input_notes := two_or_three first_note second_note third_note in
  get_loop (note_names_set input_notes) (chords self).

End Chords.

(** A hash of the tuples for the worked examples: any function will do
    as [py_hash]; this one numbers the pairs of strings and never
    collides. *)
Definition sample_hash (k : string * string) : Z := Z.pos (encode k).

(** ** The vocabulary of the statements *)

(** The letter after [L] on the circle of 26 letters. *)
Definition next_letter (L : ascii) : ascii :=
  ascii_of_nat (65 + (Py.code L - 65 + 1) mod 26).

(** The three supported alterations. *)
Definition alterations : list string := [""; "#"; "b"].

(** The note built from a letter and an alteration: [Note(L + alt)]. *)
Definition spelled (L : ascii) (alt : string) : Note.t :=
  Note.__init__ (String L alt).

(** [r] is a number at least 0 and below 26, returned without error. *)
Definition in_range (r : result Q) : Prop :=
  exists q, r = Ok q /\ (0 <= q)%Q /\ (q < 26)%Q.

(** [r1] and [r2] are numbers, returned without error, and equal. *)
Definition same_index (r1 r2 : result Q) : Prop :=
  exists p q, r1 = Ok p /\ r2 = Ok q /\ (p == q)%Q.

(** A note has a name when its string is not empty: exactly then
    [get_index] returns. *)
Definition named (n : Note.t) : Prop := Note.note n <> "".

(** A note is unaltered when its [sharpness] is the empty string. *)
Definition unaltered (n : Note.t) : Prop := Note.sharpness n = "".

(** The letter of a note, and of a chord name, as the specification reads
    them: the first character. *)
Definition first_letter (s : string) : option ascii := String.get 0 s.

(** The condition under which the specification says construction
    fails: two notes with the same letter, or the first letter of the
    chord name among the letters of the notes. *)
Definition spec_duplicate_letters (notes : list Note.t) (name : string) : Prop :=
  let letters := map (fun n => first_letter (Note.note n)) notes in
  ~ NoDup letters \/ first_letter name ∈ letters.

(** The result of the scan of [get] for the query set [q]: the first
    chord of [l] whose set of note texts is [q]. *)
Definition first_match (q : gset string) (l : list Chord.t)
    (r : option Chord.t) : Prop :=
  match r with
  | Some ch =>
      exists before after,
        l = before ++ ch :: after
        /\ Chords.note_names_set (Chord.notes ch) = q
        /\ Forall (fun e => Chords.note_names_set (Chord.notes e) <> q) before
  | None => Forall (fun e => Chords.note_names_set (Chord.notes e) <> q) l
  end.

(** All the notes of a chord have a name. *)
Definition chord_named (c : Chord.t) : Prop := Forall named (Chord.notes c).

(** Two notes are the same record or not: decidable. *)
#[local] Instance note_eq_dec : EqDecision Note.t.
Proof. solve_decision. Defined.

(** The values of the worked examples. *)
Definition plain_A : Note.t := {| Note.note := "A"; Note.sharpness := "" |}.

Definition sharpened_A : Note.t := {| Note.note := "A"; Note.sharpness := "#" |}.

Definition amaj : Chord.t :=
  {| Chord.notes := [Note.__init__ "A"; Note.__init__ "B"; Note.__init__ "C"];
     Chord.chord_name := "Amaj" |}.

Definition e5 : Chord.t :=
  {| Chord.notes := [Note.__init__ "B"; Note.__init__ "E"];
     Chord.chord_name := "E5" |}.

Definition emaj7add9 : Chord.t :=
  {| Chord.notes := [Note.__init__ "B"; Note.__init__ "E"];
     Chord.chord_name := "Emaj7add9" |}.

Definition a_sharp_c : Chord.t :=
  {| Chord.notes := [Note.__init__ "A#"; Note.__init__ "C"];
     Chord.chord_name := "X" |}.

Definition b_flat_c : Chord.t :=
  {| Chord.notes := [Note.__init__ "Bb"; Note.__init__ "C"];
     Chord.chord_name := "Y" |}.

(** An ASCII letter of either case. *)
Definition is_letter (c : ascii) : bool := Py.is_upper c || Py.is_lower c.

(** The text of a note in a listing: the note followed by the sharpness. *)
Definition text (n : Note.t) : string := Note.note n +:+ Note.sharpness n.

(** No note of the list equals a later one: every comparison of an
    earlier with a later note returns [False]. *)
Definition unequal_pairs (l : list Note.t) : Prop :=
  ForallOrdPairs (fun a b => Note.__eq__ a b = Ok false) l.

(** [for n in l: self.add(n)], stopping at the first exception. *)
Fixpoint add_each (self : NoteCollection.t) (l : list Note.t)
  : NoteCollection.t * result unit :=
  match l with
  | [] => (self, Ok tt)
  | n :: r =>
      match NoteCollection.add self n with
      | (self', Ok _) => add_each self' r
      | (self', Raise e) => (self', Raise e)
      end
  end.

(** The order in which [sorted] leaves two notes. *)
Definition key_order (a b : Note.t) : Prop :=
  Py.key_le (Chord.sort_key a) (Chord.sort_key b) = true.

(** The lines of a listing, each after a line feed. *)
Fixpoint listing (l : list Note.t) : string :=
  match l with
  | [] => EmptyString
  | n :: r => Py.newline +:+ "  * " +:+ text n +:+ listing r
  end.

(** The text of a note does not end in white space (and is not empty). *)
Definition tidy (n : Note.t) : Prop := Py.rstrip (text n) = text n /\ text n <> "".


(** No chord of the list compares equal to a later one. *)
Definition unequal_chords (py_hash : string * string -> Z)
    (l : list Chord.t) : Prop :=
  ForallOrdPairs (fun a b => Chord.__eq__ py_hash a b = Ok false) l.

(** ** The worked examples of the source *)

Example get_index_A_sharp :
  Note.get_index (Note.__init__ "A#") = Ok (1 # 2)%Q.
Proof. reflexivity. Qed.

Example get_index_a_flat :
  Note.get_index (Note.__init__ "ab") = Ok (51 # 2)%Q.
Proof. reflexivity. Qed.

Example get_index_digit : Note.get_index (Note.__init__ "1") = Ok (-1 # 1)%Q.
Proof. reflexivity. Qed.

Example sorted_by_key :
  Py.sorted (fun n => (Note.note n, Note.sharpness n))
    [Note.__init__ "c"; Note.__init__ "A#"; Note.__init__ "A"]
  = [Note.__init__ "A"; Note.__init__ "A#"; Note.__init__ "C"].
Proof. reflexivity. Qed.

Example chord_Amaj :
  Chord.__init__ (Note.__init__ "A") (Note.__init__ "B") "Amaj"
    (Some (Note.__init__ "C"))
  = Ok {| Chord.notes := [Note.__init__ "A"; Note.__init__ "B"; Note.__init__ "C"];
          Chord.chord_name := "Amaj" |}.
Proof. vm_compute. reflexivity. Qed.

Example chord_E_fails :
  Chord.__init__ (Note.__init__ "E") (Note.__init__ "A") "E" None
  = Raise DuplicateNoteNamesException.
Proof. vm_compute. reflexivity. Qed.

(** ** Pitch index *)

Lemma upper_cases (P : ascii -> Prop) :
  Forall P (String.list_ascii_of_string Py.ascii_uppercase) ->
  forall L, Py.is_upper L = true -> P L.
Proof.
  intros HP L HL.
  destruct L as [[] [] [] [] [] [] [] []]; vm_compute in HL;
    try discriminate HL; clear HL;
    repeat (apply Forall_cons in HP; destruct HP as [? HP]; try assumption).
Qed.

Lemma alterations_cases (P : string -> Prop) :
  P "" -> P "#" -> P "b" -> forall alt, In alt alterations -> P alt.
Proof.
  intros H0 H1 H2 alt [<- | [<- | [<- | []]]]; assumption.
Qed.

(** C7: for every letter A-Z and every alteration among "", "#" and "b",
    [get_index] of the note built from them returns, without an error, a
    number in the half-open interval from 0 to 26. *)
Theorem get_index_in_range (L : ascii) (alt : string) :
  Py.is_upper L = true -> In alt alterations ->
  in_range (Note.get_index (spelled L alt)).
Proof.
  intros HL Halt. revert L HL.
  apply upper_cases.
  revert alt Halt. apply alterations_cases;
    repeat constructor;
    (eexists; split; [vm_compute; reflexivity | split; vm_compute; congruence]).
Qed.

Lemma get_index_in_range_witness :
  in_range (Note.get_index (spelled "A" "b")).
Proof.
  apply (get_index_in_range "A" "b").
  - reflexivity.
  - simpl. tauto.
Defined.

(** C6: for every letter L of the alphabet, the note L# and the note of
    the next letter (cyclically) with "b" have equal pitch index; so have
    A# and Bb, and, across the wrap, Ab and Z#. *)
Theorem enharmonic_index (L : ascii) :
  Py.is_upper L = true ->
  same_index (Note.get_index (spelled L "#"))
             (Note.get_index (spelled (next_letter L) "b"))
  /\ same_index (Note.get_index (Note.__init__ "A#"))
                (Note.get_index (Note.__init__ "Bb"))
  /\ same_index (Note.get_index (Note.__init__ "Ab"))
                (Note.get_index (Note.__init__ "Z#")).
Proof.
  intros HL. split; [| split].
  - revert L HL. apply upper_cases.
    repeat constructor;
      (eexists; eexists; split; [vm_compute; reflexivity |
        split; [vm_compute; reflexivity | reflexivity]]).
  - exists (1 # 2)%Q, (1 # 2)%Q. repeat split.
  - exists (51 # 2)%Q, (51 # 2)%Q. repeat split.
Qed.

Lemma enharmonic_index_witness :
  same_index (Note.get_index (spelled "Z" "#"))
             (Note.get_index (spelled (next_letter "Z") "b")).
Proof.
  apply (enharmonic_index "Z"). reflexivity.
Defined.

(** ** Note equality and hash *)

Lemma prefix_spec (a b : string) :
  String.prefix a b = true <-> exists post, b = a +:+ post.
Proof.
  revert b. induction a as [| c a IH]; intros b.
  - split; [intros _; exists b; reflexivity | intros _; destruct b; reflexivity].
  - destruct b as [| d b]; simpl.
    + split; [discriminate | intros [post H]; discriminate H].
    + destruct (ascii_dec c d) as [-> | Hne].
      * rewrite IH. split; intros [post H]; exists post.
        -- now rewrite H.
        -- now injection H.
      * split; [discriminate |].
        intros [post H]. injection H as H1 _. congruence.
Qed.

Lemma str_in_nil (a : string) :
  Py.str_in a "" = String.prefix a "" || false.
Proof. reflexivity. Qed.

Lemma str_in_cons (a : string) (d : ascii) (b : string) :
  Py.str_in a (String d b) = String.prefix a (String d b) || Py.str_in a b.
Proof. reflexivity. Qed.

Lemma str_in_spec (a b : string) :
  Py.str_in a b = true <-> exists pre post, b = pre +:+ a +:+ post.
Proof.
  induction b as [| d b IH]; [rewrite str_in_nil | rewrite str_in_cons].
  - rewrite orb_false_r, prefix_spec. split.
    + intros [post H]. exists "", post. exact H.
    + intros [pre [post H]]. destruct pre; [exists post; exact H | discriminate H].
  - rewrite orb_true_iff, IH, prefix_spec. split.
    + intros [[post H] | [pre [post H]]].
      * exists "", post. exact H.
      * exists (String d pre), post. simpl. now rewrite H.
    + intros [pre [post H]]. destruct pre as [| e pre].
      * left. exists post. exact H.
      * right. exists pre, post. simpl in H. now injection H.
Qed.

Lemma str_in_empty (s : string) : Py.str_in "" s = true.
Proof. apply str_in_spec. exists "", s. reflexivity. Qed.

Lemma string_app_assoc (a b c : string) : (a +:+ b) +:+ c = a +:+ (b +:+ c).
Proof. induction a as [| x a IH]; [reflexivity | exact (f_equal (String x) IH)]. Qed.

Lemma string_app_nil_r (a : string) : a +:+ "" = a.
Proof. induction a as [| x a IH]; [reflexivity | exact (f_equal (String x) IH)]. Qed.

Lemma str_in_refl (s : string) : Py.str_in s s = true.
Proof. apply str_in_spec. exists "", "". symmetry. apply string_app_nil_r. Qed.

Lemma str_in_trans (a b c : string) :
  Py.str_in a b = true -> Py.str_in b c = true -> Py.str_in a c = true.
Proof.
  rewrite !str_in_spec. intros [p1 [q1 ->]] [p2 [q2 ->]].
  exists (p2 +:+ p1), (q1 +:+ q2).
  rewrite !string_app_assoc. reflexivity.
Qed.

Lemma get_index_named (n : Note.t) :
  named n -> exists q, Note.get_index n = Ok q.
Proof.
  unfold named, Note.get_index. destruct (Note.note n) as [| c0 [| c1 r]];
    [congruence | eauto | eauto].
Qed.

Lemma get_index_unnamed (n : Note.t) :
  Note.note n = "" -> Note.get_index n = Raise IndexError.
Proof. unfold Note.get_index. now intros ->. Qed.

Lemma get_index_Ok_named (n : Note.t) (q : Q) :
  Note.get_index n = Ok q -> named n.
Proof.
  intros H Hn. rewrite (get_index_unnamed n Hn) in H. discriminate H.
Qed.

Lemma eq_named (x y : Note.t) :
  named x -> named y -> exists b, Note.__eq__ x y = Ok b.
Proof.
  intros [p Hp]%get_index_named [q Hq]%get_index_named.
  unfold Note.__eq__. rewrite Hp, Hq. simpl. eauto.
Qed.

Lemma eq_Ok_named (x y : Note.t) (b : bool) :
  Note.__eq__ x y = Ok b -> named x /\ named y.
Proof.
  unfold Note.__eq__.
  destruct (Note.get_index x) as [p |] eqn:Hp; [| discriminate].
  destruct (Note.get_index y) as [q |] eqn:Hq; [| discriminate].
  intros _. eauto using get_index_Ok_named.
Qed.

Lemma eq_true_iff (x y : Note.t) :
  Note.__eq__ x y = Ok true <->
  same_index (Note.get_index x) (Note.get_index y)
  /\ Py.str_in (Note.sharpness x) (Note.sharpness y) = true.
Proof.
  unfold Note.__eq__, same_index.
  destruct (Note.get_index x) as [p |]; simpl.
  - destruct (Note.get_index y) as [q |]; simpl.
    + split.
      * intros H. injection H as H. apply andb_true_iff in H as [H1 H2].
        split; [| exact H2]. exists p, q. now rewrite <- Qeq_bool_iff.
      * intros [[p' [q' [Hp [Hq Hpq]]]] H2].
        injection Hp as <-. injection Hq as <-.
        apply Qeq_bool_iff in Hpq. now rewrite Hpq, H2.
    + split; [discriminate |]. intros [[p' [q' [_ [Hq _]]]] _]. discriminate Hq.
  - split; [discriminate |]. intros [[p' [q' [Hp _]]] _]. discriminate Hp.
Qed.

Lemma Qeq_bool_sym (a b : Q) : Qeq_bool a b = Qeq_bool b a.
Proof. unfold Qeq_bool. apply Z.eqb_sym. Qed.

(** C2, as amended: [x == y] returns [True] exactly when both pitch
    indices are computed and equal and the alteration of the receiver [x]
    occurs inside the alteration of the argument [y]. *)
Theorem note_eq_containment (x y : Note.t) :
  Note.__eq__ x y = Ok true <->
  same_index (Note.get_index x) (Note.get_index y)
  /\ exists pre post, Note.sharpness y = pre +:+ Note.sharpness x +:+ post.
Proof. rewrite eq_true_iff, str_in_spec. reflexivity. Qed.

(** C2, as stated, fails: an unaltered A equals a sharpened note of the
    same index although "#" does not occur inside "". *)
Lemma note_eq_containment_claimed_direction_fails :
  ~ (Note.__eq__ plain_A sharpened_A = Ok true <->
     same_index (Note.get_index plain_A) (Note.get_index sharpened_A)
     /\ exists pre post,
          Note.sharpness plain_A = pre +:+ Note.sharpness sharpened_A +:+ post).
Proof.
  intros [H _].
  destruct (H eq_refl) as [_ [pre [post Hc]]].
  destruct pre; discriminate Hc.
Qed.

Lemma note_eq_containment_witness :
  Note.__eq__ plain_A sharpened_A = Ok true
  /\ Note.__eq__ sharpened_A plain_A = Ok false.
Proof.
  split; [| reflexivity].
  apply (note_eq_containment plain_A sharpened_A). split.
  - exists 0%Q, 0%Q. repeat split.
  - exists "", "#". reflexivity.
Defined.

(** C3: the notes A# and Bb are equal under [__eq__], and their hashes
    differ as soon as the builtin hash tells the tuples ("A#", "") and
    ("Bb", "") apart. *)
Theorem hash_inconsistent_with_eq (py_hash : string * string -> Z) :
  py_hash ("A#", "") <> py_hash ("Bb", "") ->
  exists x y : Note.t,
    x = Note.__init__ "A#" /\ y = Note.__init__ "Bb"
    /\ Note.__eq__ x y = Ok true
    /\ Note.__eq__ y x = Ok true
    /\ Note.__hash__ py_hash x <> Note.__hash__ py_hash y.
Proof.
  intros Hsep. exists (Note.__init__ "A#"), (Note.__init__ "Bb").
  repeat split; exact Hsep.
Qed.

Lemma hash_inconsistent_with_eq_witness :
  exists x y : Note.t,
    x = Note.__init__ "A#" /\ y = Note.__init__ "Bb"
    /\ Note.__eq__ x y = Ok true
    /\ Note.__eq__ y x = Ok true
    /\ Note.__hash__ sample_hash x <> Note.__hash__ sample_hash y.
Proof.
  apply (hash_inconsistent_with_eq sample_hash). vm_compute. discriminate.
Defined.

(** ** Notes travel through the containers unchanged *)

Lemma insert_sorted_perm {A} (key : A -> string * string) (x : A) (l : list A) :
  Py.insert_sorted key x l ≡ₚ x :: l.
Proof.
  induction l as [| y r IH]; simpl; [reflexivity |].
  destruct (Py.key_le (key y) (key x)); [| reflexivity].
  rewrite IH. apply perm_swap.
Qed.

Lemma sorted_perm {A} (key : A -> string * string) (l : list A) :
  Py.sorted key l ≡ₚ l.
Proof.
  unfold Py.sorted.
  enough (H : forall acc,
    fold_left (fun acc x => Py.insert_sorted key x acc) l acc ≡ₚ acc ++ l)
    by apply (H []).
  induction l as [| x l IH]; intros acc; simpl.
  - now rewrite app_nil_r.
  - rewrite IH, insert_sorted_perm. apply Permutation_middle.
Qed.

Section Preserved.
Variable P : Note.t -> Prop.

Lemma add_preserves (self : NoteCollection.t) (n : Note.t) :
  Forall P (NoteCollection.notes self) -> P n ->
  Forall P (NoteCollection.notes (NoteCollection.add self n).1).
Proof.
  intros Hself Hn. unfold NoteCollection.add.
  destruct (list_contains _ _) as [[] |]; simpl; try assumption.
  apply Forall_app. split; [assumption | now constructor].
Qed.

Lemma pop_loop_preserves (probe : Note.t) (rest seen : list Note.t) :
  Forall P (seen ++ rest) ->
  Forall P (NoteCollection.pop_loop seen rest probe).1
  /\ forall n, (NoteCollection.pop_loop seen rest probe).2 = Ok (Some n) -> P n.
Proof.
  revert seen. induction rest as [| x r IH]; intros seen H; simpl.
  - rewrite app_nil_r in H. split; [assumption | discriminate].
  - destruct (Note.__eq__ x probe) as [[] |]; simpl.
    + apply Forall_app in H as [Hs Hr]. apply Forall_cons in Hr as [Hx Hr].
      split; [apply Forall_app; now split |].
      intros n Hn. now injection Hn as <-.
    + apply IH. now rewrite <- app_assoc.
    + split; [assumption | discriminate].
Qed.

Lemma pop_preserves (self : NoteCollection.t) (s : string) :
  Forall P (NoteCollection.notes self) ->
  Forall P (NoteCollection.notes (NoteCollection.pop self s).1)
  /\ forall n, (NoteCollection.pop self s).2 = Ok (Some n) -> P n.
Proof.
  intros H. unfold NoteCollection.pop.
  pose proof (pop_loop_preserves (Note.__init__ s) (NoteCollection.notes self) [] H) as HP.
  destruct (NoteCollection.pop_loop _ _ _) as [l r]. exact HP.
Qed.

Lemma chord_init_preserves (n1 n2 : Note.t) (name : string)
    (n3 : option Note.t) (c : Chord.t) :
  Chord.__init__ n1 n2 name n3 = Ok c ->
  P n1 -> P n2 -> (forall n, n3 = Some n -> P n) ->
  Forall P (Chord.notes c).
Proof.
  unfold Chord.__init__. intros H H1 H2 H3.
  destruct (_ || _); [discriminate |]. injection H as <-. simpl.
  rewrite sorted_perm.
  destruct n3 as [n |]; repeat constructor; auto.
Qed.

Lemma chords_add_preserves (py_hash : string * string -> Z)
    (self : Chords.t) (c : Chord.t) :
  Forall (fun ch => Forall P (Chord.notes ch)) (Chords.chords self) ->
  Forall P (Chord.notes c) ->
  Forall (fun ch => Forall P (Chord.notes ch))
         (Chords.chords (Chords.add py_hash self c).1).
Proof.
  intros Hself Hc. unfold Chords.add.
  destruct (Chords.add_loop _ _ _); simpl; [| assumption].
  apply Forall_app. split; [assumption | now constructor].
Qed.
End Preserved.

Lemma get_loop_elem (q : gset string) (l : list Chord.t) (ch : Chord.t) :
  Chords.get_loop q l = Some ch -> ch ∈ l.
Proof.
  induction l as [| c r IH]; simpl; [discriminate |].
  destruct (bool_decide _).
  - intros H. injection H as <-. left.
  - intros H. right. auto.
Qed.

Lemma get_elem (self : Chords.t) (a b : Note.t) (c : option Note.t) (ch : Chord.t) :
  Chords.get self a b c = Some ch -> ch ∈ Chords.chords self.
Proof. apply get_loop_elem. Qed.

Lemma unaltered_eq_iff (x y : Note.t) :
  unaltered x -> unaltered y ->
  (Note.__eq__ x y = Ok true <->
   same_index (Note.get_index x) (Note.get_index y)).
Proof.
  intros Hx Hy. rewrite eq_true_iff, Hx, str_in_empty. tauto.
Qed.

Lemma unaltered_eq_sym (x y : Note.t) :
  unaltered x -> unaltered y -> Note.__eq__ x y = Note.__eq__ y x.
Proof.
  intros Hx Hy. unfold Note.__eq__. rewrite Hx, Hy.
  destruct (Note.get_index x) as [p | []] eqn:Hp;
    destruct (Note.get_index y) as [q | []] eqn:Hq; simpl;
    try reflexivity;
    try (unfold Note.get_index in *;
         repeat match goal with
                | H : context [match ?s with EmptyString => _ | String _ _ => _ end] |- _ =>
                    destruct s; try discriminate H
                end; fail).
  now rewrite Qeq_bool_sym.
Qed.

(** C9: every constructed note has the empty [sharpness]; the
    operations of the collection, of the chord and of the registry keep
    and hand out only unaltered notes when they are given unaltered notes;
    and between unaltered notes [__eq__] returns [True] exactly when the
    pitch indices are equal, and gives the same result in both
    directions. *)
Theorem sharpness_always_empty :
  (forall s, unaltered (Note.__init__ s))
  /\ (forall self n,
        Forall unaltered (NoteCollection.notes self) -> unaltered n ->
        Forall unaltered (NoteCollection.notes (NoteCollection.add self n).1))
  /\ (forall self s,
        Forall unaltered (NoteCollection.notes self) ->
        Forall unaltered (NoteCollection.notes (NoteCollection.pop self s).1)
        /\ forall n, (NoteCollection.pop self s).2 = Ok (Some n) -> unaltered n)
  /\ (forall self,
        Forall unaltered (NoteCollection.notes self) ->
        Forall unaltered (NoteCollection.notes (NoteCollection.extract self).1)
        /\ Forall unaltered (NoteCollection.extract self).2)
  /\ (forall n1 n2 name n3 c,
        Chord.__init__ n1 n2 name n3 = Ok c ->
        unaltered n1 -> unaltered n2 -> (forall n, n3 = Some n -> unaltered n) ->
        Forall unaltered (Chord.notes c))
  /\ (forall py_hash self c,
        Forall (fun ch => Forall unaltered (Chord.notes ch)) (Chords.chords self) ->
        Forall unaltered (Chord.notes c) ->
        Forall (fun ch => Forall unaltered (Chord.notes ch))
               (Chords.chords (Chords.add py_hash self c).1))
  /\ (forall self a b c ch,
        Forall (fun ch => Forall unaltered (Chord.notes ch)) (Chords.chords self) ->
        Chords.get self a b c = Some ch ->
        Forall unaltered (Chord.notes ch))
  /\ (forall x y,
        unaltered x -> unaltered y ->
        (Note.__eq__ x y = Ok true <->
         same_index (Note.get_index x) (Note.get_index y))
        /\ Note.__eq__ x y = Note.__eq__ y x).
Proof.
  split; [reflexivity |].
  split; [apply add_preserves |].
  split; [apply pop_preserves |].
  split; [intros self H; split; [constructor | exact H] |].
  split; [apply chord_init_preserves |].
  split; [apply chords_add_preserves |].
  split.
  - intros self a b c ch Hself Hget.
    apply get_elem in Hget.
    rewrite Forall_forall in Hself. now apply Hself.
  - intros x y Hx Hy.
    split; [now apply unaltered_eq_iff | now apply unaltered_eq_sym].
Qed.

Lemma sharpness_always_empty_witness :
  (Note.__eq__ (Note.__init__ "A#") (Note.__init__ "Bb") = Ok true <->
   same_index (Note.get_index (Note.__init__ "A#"))
              (Note.get_index (Note.__init__ "Bb")))
  /\ Note.__eq__ (Note.__init__ "A#") (Note.__init__ "Bb")
     = Note.__eq__ (Note.__init__ "Bb") (Note.__init__ "A#").
Proof.
  apply sharpness_always_empty; reflexivity.
Defined.

(** ** NoteCollection.add *)

Lemma list_contains_found (l : list Note.t) (n : Note.t) :
  (exists e, e ∈ l /\ Note.__eq__ e n = Ok true) ->
  list_contains l n <> Ok false.
Proof.
  intros [e [Hin He]]. induction Hin as [e l | e x l Hin IH]; simpl.
  - rewrite He. discriminate.
  - destruct (Note.__eq__ x n) as [[] |]; simpl; [discriminate | exact (IH He) | discriminate].
Qed.

Lemma list_contains_false (l : list Note.t) (n : Note.t) :
  list_contains l n = Ok false <-> Forall (fun e => Note.__eq__ e n = Ok false) l.
Proof.
  induction l as [| x l IH]; simpl.
  - split; [constructor | reflexivity].
  - rewrite Forall_cons, <- IH.
    destruct (Note.__eq__ x n) as [[] |]; simpl; split;
      try discriminate; try tauto; intros [H _]; discriminate H.
Qed.

Lemma list_contains_true (l : list Note.t) (n : Note.t) :
  list_contains l n = Ok true -> exists e, e ∈ l /\ Note.__eq__ e n = Ok true.
Proof.
  induction l as [| x l IH]; simpl; [discriminate |].
  destruct (Note.__eq__ x n) as [[] |] eqn:Hx; simpl.
  - intros _. exists x. split; [left | exact Hx].
  - intros [e [Hin He]]%IH. exists e. split; [now right | exact He].
  - discriminate.
Qed.

Lemma add_noop (self : NoteCollection.t) (n : Note.t) :
  (exists e, e ∈ NoteCollection.notes self /\ Note.__eq__ e n = Ok true) ->
  (NoteCollection.add self n).1 = self.
Proof.
  intros H%list_contains_found. unfold NoteCollection.add.
  destruct (list_contains _ _) as [[] |]; try reflexivity. congruence.
Qed.

Lemma note_eq_trans (a b c : Note.t) :
  Note.__eq__ a b = Ok true -> Note.__eq__ b c = Ok true ->
  Note.__eq__ a c = Ok true.
Proof.
  rewrite !eq_true_iff.
  intros [[p [q [Hp [Hq Hpq]]]] Hs1] [[q' [r [Hq' [Hr Hqr]]]] Hs2].
  split; [| eauto using str_in_trans].
  rewrite Hq in Hq'. injection Hq' as <-.
  exists p, r. repeat split; try assumption. now rewrite Hpq.
Qed.

(** C8: when the collection holds a note that equals [n], [add(n)]
    leaves the list of notes as it is; and after [add(n)] has returned,
    adding a note [n'] that [n] equals leaves the list, and so its
    length, as the first [add] left it; starting from the empty
    collection the two calls leave exactly the one note [n]. *)
Theorem add_idempotent :
  (forall self n,
     (exists e, e ∈ NoteCollection.notes self /\ Note.__eq__ e n = Ok true) ->
     (NoteCollection.add self n).1 = self)
  /\ (forall self n n',
        Note.__eq__ n n' = Ok true ->
        (NoteCollection.add self n).2 = Ok tt ->
        let once := (NoteCollection.add self n).1 in
        let twice := (NoteCollection.add once n').1 in
        twice = once
        /\ length (NoteCollection.notes twice) = length (NoteCollection.notes once))
  /\ (forall n n',
        Note.__eq__ n n' = Ok true ->
        NoteCollection.notes
          (NoteCollection.add (NoteCollection.add NoteCollection.__init__ n).1 n').1
        = [n]).
Proof.
  split; [exact add_noop |].
  assert (Hempty : forall n n',
            Note.__eq__ n n' = Ok true ->
            NoteCollection.notes
              (NoteCollection.add (NoteCollection.add NoteCollection.__init__ n).1 n').1
            = [n]).
  { intros n n' Heq. unfold NoteCollection.add at 2. cbn.
    unfold NoteCollection.add. cbn. now rewrite Heq. }
  split; [| exact Hempty].
  intros self n n' Heq Hret once twice.
  enough (H : twice = once) by (split; [exact H | now rewrite H]).
  apply add_noop. subst once. unfold NoteCollection.add in *.
  destruct (list_contains (NoteCollection.notes self) n) as [[] |] eqn:Hc; simpl in *.
  - apply list_contains_true in Hc as [e [Hin He]].
    exists e. split; [exact Hin | eauto using note_eq_trans].
  - exists n. split; [apply elem_of_app; right; left |].
    apply eq_Ok_named in Heq as Hn. destruct Hn as [Hn Hn'].
    assert (Hnn : Note.__eq__ n n = Ok true).
    { apply eq_true_iff. split; [| apply str_in_refl].
      destruct (get_index_named n Hn) as [q Hq]. exists q, q. now rewrite Hq. }
    eauto using note_eq_trans.
  - discriminate Hret.
Qed.

Lemma add_idempotent_witness :
  (NoteCollection.add
     {| NoteCollection.notes := [Note.__init__ "C"; Note.__init__ "A#"] |}
     (Note.__init__ "Bb")).1
  = {| NoteCollection.notes := [Note.__init__ "C"; Note.__init__ "A#"] |}.
Proof.
  apply add_idempotent.
  exists (Note.__init__ "A#"). split; [right; left | reflexivity].
Defined.

(** ** Chord construction *)

Lemma size_list_to_set_le (l : list string) :
  size (list_to_set l : gset string) <= length l.
Proof.
  induction l as [| x l IH].
  - now rewrite list_to_set_nil, size_empty.
  - rewrite list_to_set_cons. cbn [length].
    pose proof (size_union_alt ({[x]} : gset string) (list_to_set l)) as Hu.
    pose proof (subseteq_size (list_to_set l ∖ {[x]} : gset string) (list_to_set l)) as Hs.
    rewrite size_singleton in Hu.
    assert (Hd : size (list_to_set l ∖ {[x]} : gset string)
                 <= size (list_to_set l : gset string)).
    { apply Hs. apply subseteq_difference_l. reflexivity. }
    lia.
Qed.

Lemma size_list_to_set_NoDup (l : list string) :
  size (list_to_set l : gset string) = length l <-> NoDup l.
Proof.
  split; [| apply size_list_to_set].
  induction l as [| x l IH]; [constructor |].
  rewrite list_to_set_cons. cbn [length].
  intros H. destruct (decide (x ∈ l)) as [Hin | Hnin].
  - exfalso.
    assert (Heq : ({[x]} ∪ list_to_set l : gset string) = list_to_set l)
      by (apply subseteq_union_1_L, singleton_subseteq_l, elem_of_list_to_set, Hin).
    rewrite Heq in H. pose proof (size_list_to_set_le l). lia.
  - rewrite size_union in H by (apply disjoint_singleton_l; now rewrite elem_of_list_to_set).
    rewrite size_singleton in H.
    apply NoDup_cons. split; [exact Hnin | apply IH; lia].
Qed.

Lemma chord_init_check (note_names : list string) (n : nat) (chord_name : string) :
  n = length note_names ->
  negb (size (list_to_set note_names : gset string) =? n)%nat
  || negb (size (list_to_set (note_names ++ [chord_name]) : gset string)
           =? length note_names + 1)%nat = true
  <-> ~ NoDup note_names \/ chord_name ∈ note_names.
Proof.
  intros ->.
  rewrite orb_true_iff, !negb_true_iff, !Nat.eqb_neq.
  replace (length note_names + 1) with (length (note_names ++ [chord_name]))
    by (rewrite length_app; reflexivity).
  rewrite !size_list_to_set_NoDup, NoDup_app.
  split.
  - intros [H | H]; [now left |].
    destruct (decide (chord_name ∈ note_names)) as [Hin | Hnin]; [now right |].
    left. intros Hnd. apply H. split; [exact Hnd |].
    split; [| apply NoDup_singleton].
    intros x Hx Hx'. apply list_elem_of_singleton in Hx'. now subst.
  - intros [H | H]; [now left |].
    right. intros [_ [Hd _]]. apply (Hd _ H). now left.
Qed.

Lemma chord_init_raises (n1 n2 : Note.t) (name : string) (n3 : option Note.t) :
  Chord.__init__ n1 n2 name n3 = Raise DuplicateNoteNamesException
  <-> ~ NoDup (map Note.note (two_or_three n1 n2 n3))
      \/ name ∈ map Note.note (two_or_three n1 n2 n3).
Proof.
  rewrite <- (chord_init_check _ (length (two_or_three n1 n2 n3)) name)
    by (now rewrite length_map).
  unfold Chord.__init__.
  destruct (_ || _); split; try reflexivity; discriminate.
Qed.

Lemma chord_init_returns (n1 n2 : Note.t) (name : string) (n3 : option Note.t) :
  NoDup (map Note.note (two_or_three n1 n2 n3)) ->
  name ∉ map Note.note (two_or_three n1 n2 n3) ->
  Chord.__init__ n1 n2 name n3
  = Ok {| Chord.notes := Py.sorted Chord.sort_key (two_or_three n1 n2 n3);
          Chord.chord_name := name |}.
Proof.
  intros Hnd Hnin.
  pose proof (chord_init_check (map Note.note (two_or_three n1 n2 n3))
                (length (two_or_three n1 n2 n3)) name) as Hc.
  unfold Chord.__init__.
  destruct (_ || _); [| reflexivity].
  destruct (proj1 (Hc (eq_sym (length_map _ _))) eq_refl); contradiction.
Qed.

(** C1, as amended: construction fails with [DuplicateNoteNamesException]
    exactly when two of the notes carry the same note string or the chord
    name, as a whole string, is the note string of one of them; otherwise
    it returns the chord with the given name and the notes sorted.  Notes
    A, B, C with the name "Amaj" succeed; notes E, A with the name "E"
    fail. *)
Theorem chord_init_duplicates :
  (forall n1 n2 name n3,
     let note_names := map Note.note (two_or_three n1 n2 n3) in
     (Chord.__init__ n1 n2 name n3 = Raise DuplicateNoteNamesException
      <-> ~ NoDup note_names \/ name ∈ note_names)
     /\ (~ (~ NoDup note_names \/ name ∈ note_names) ->
         Chord.__init__ n1 n2 name n3
         = Ok {| Chord.notes := Py.sorted Chord.sort_key (two_or_three n1 n2 n3);
                 Chord.chord_name := name |}))
  /\ (exists c,
        Chord.__init__ (Note.__init__ "A") (Note.__init__ "B") "Amaj"
          (Some (Note.__init__ "C")) = Ok c)
  /\ Chord.__init__ (Note.__init__ "E") (Note.__init__ "A") "E" None
     = Raise DuplicateNoteNamesException.
Proof.
  split; [| split].
  - intros n1 n2 name n3 note_names. split; [apply chord_init_raises |].
    intros H. apply chord_init_returns.
    + destruct (decide (NoDup (map Note.note (two_or_three n1 n2 n3)))); tauto.
    + tauto.
  - eexists. vm_compute. reflexivity.
  - vm_compute. reflexivity.
Qed.

Lemma chord_init_duplicates_witness :
  Chord.__init__ (Note.__init__ "A#") (Note.__init__ "Ab") "A" None
  = Ok {| Chord.notes := [Note.__init__ "A#"; Note.__init__ "Ab"];
          Chord.chord_name := "A" |}.
Proof.
  apply (proj1 chord_init_duplicates (Note.__init__ "A#") (Note.__init__ "Ab") "A" None).
  vm_compute. intros [H | H].
  - apply H. repeat constructor; rewrite ?list_elem_of_singleton, ?elem_of_nil;
      try discriminate; tauto.
  - repeat (apply elem_of_cons in H as [H | H]; [discriminate H |]).
    now apply elem_of_nil in H.
Defined.

(** C1, as stated, fails twice over: the name "Amaj" starts with the
    letter of the note A and yet the chord of A, B, C is built; the notes
    A# and Ab share their letter and yet their chord is built. *)
Lemma chord_init_letters_fails :
  ~ (Chord.__init__ (Note.__init__ "A") (Note.__init__ "B") "Amaj"
       (Some (Note.__init__ "C")) = Raise DuplicateNoteNamesException
     <-> spec_duplicate_letters
           [Note.__init__ "A"; Note.__init__ "B"; Note.__init__ "C"] "Amaj")
  /\ ~ (Chord.__init__ (Note.__init__ "A#") (Note.__init__ "Ab") "X" None
        = Raise DuplicateNoteNamesException
        <-> spec_duplicate_letters [Note.__init__ "A#"; Note.__init__ "Ab"] "X").
Proof.
  split; intros [_ H].
  - assert (Hc : Chord.__init__ (Note.__init__ "A") (Note.__init__ "B") "Amaj"
                   (Some (Note.__init__ "C")) = Raise DuplicateNoteNamesException).
    { apply H. right. left. }
    vm_compute in Hc. discriminate Hc.
  - assert (Hc : Chord.__init__ (Note.__init__ "A#") (Note.__init__ "Ab") "X" None
                 = Raise DuplicateNoteNamesException).
    { apply H. left. intros Hnd. apply NoDup_cons in Hnd as [Hnin _].
      apply Hnin. left. }
    vm_compute in Hc. discriminate Hc.
Qed.

(** ** Chords.get *)

Lemma note_names_set_perm (l l' : list Note.t) :
  l ≡ₚ l' -> Chords.note_names_set l = Chords.note_names_set l'.
Proof.
  intros H. unfold Chords.note_names_set.
  apply list_to_set_perm_L. now rewrite H.
Qed.

Lemma elem_of_map {A B} (f : A -> B) (l : list A) (y : B) :
  y ∈ map f l <-> exists x, x ∈ l /\ y = f x.
Proof.
  induction l as [| a l IH]; simpl.
  - split; [intros H; now apply elem_of_nil in H |].
    intros [x [H _]]. now apply elem_of_nil in H.
  - rewrite elem_of_cons, IH. split.
    + intros [-> | [x [H1 H2]]]; [exists a | exists x];
        (split; [| assumption || reflexivity]); [left | now right].
    + intros [x [[-> | H1]%elem_of_cons H2]]; [now left | right; eauto].
Qed.

Lemma note_text (n : Note.t) :
  Note.note n +:+ Chords.str_or (Note.sharpness n) ""
  = Note.note n +:+ Note.sharpness n.
Proof. unfold Chords.str_or. now destruct (Note.sharpness n). Qed.

Lemma elem_of_note_names_set (s : string) (l : list Note.t) :
  s ∈ Chords.note_names_set l
  <-> exists n, n ∈ l /\ s = Note.note n +:+ Note.sharpness n.
Proof.
  unfold Chords.note_names_set. rewrite elem_of_list_to_set, elem_of_map.
  split; intros [n [H1 H2]]; exists n; (split; [assumption |]);
    [rewrite <- note_text | rewrite note_text]; exact H2.
Qed.

Lemma get_loop_first_match (q : gset string) (l : list Chord.t) :
  first_match q l (Chords.get_loop q l).
Proof.
  induction l as [| c r IH]; simpl; [constructor |].
  destruct (bool_decide_reflect (q = Chords.note_names_set (Chord.notes c))) as [Hq | Hq].
  - exists [], r. repeat split; [now symmetry | constructor].
  - destruct (Chords.get_loop q r) as [ch |]; simpl in *.
    + destruct IH as [before [after [-> [Hm Hb]]]].
      exists (c :: before), after. repeat split; [exact Hm |].
      constructor; [congruence | exact Hb].
    + constructor; [congruence | exact IH].
Qed.

Lemma get_swap (self : Chords.t) (a b : Note.t) :
  Chords.get self a b None = Chords.get self b a None.
Proof.
  unfold Chords.get.
  now rewrite (note_names_set_perm (two_or_three a b None) (two_or_three b a None))
    by apply perm_swap.
Qed.

Lemma get_perm (self : Chords.t) (a b c a' b' c' : Note.t) :
  [a; b; c] ≡ₚ [a'; b'; c'] ->
  Chords.get self a b (Some c) = Chords.get self a' b' (Some c').
Proof.
  intros H. unfold Chords.get.
  now rewrite (note_names_set_perm (two_or_three a b (Some c))
                 (two_or_three a' b' (Some c')) H).
Qed.

Lemma get_exact_text (self : Chords.t) (a b : Note.t) (c : option Note.t)
    (ch : Chord.t) :
  Chords.get self a b c = Some ch ->
  forall n, n ∈ two_or_three a b c ->
  exists m, m ∈ Chord.notes ch
            /\ Note.note m +:+ Note.sharpness m = Note.note n +:+ Note.sharpness n.
Proof.
  intros Hget n Hn. unfold Chords.get in Hget.
  pose proof (get_loop_first_match (Chords.note_names_set (two_or_three a b c))
                (Chords.chords self)) as Hf.
  rewrite Hget in Hf. destruct Hf as [before [after [_ [Hm _]]]].
  assert (Hin : Note.note n +:+ Note.sharpness n
                ∈ Chords.note_names_set (Chord.notes ch)).
  { rewrite Hm. apply elem_of_note_names_set. now exists n. }
  apply elem_of_note_names_set in Hin as [m [Hm1 Hm2]]. now exists m.
Qed.

(** C4: [get] gives the same answer for every order of its two or three
    notes; the answer is the first registered chord whose set of note
    texts (note followed by sharpness) is the set of the texts of the
    query, and [None] when there is none; every text of the query is then
    the text of a note of the chord, so a query with "A#" does not find a
    chord stored with "Bb".  After registering the chord of A, B, C named
    "Amaj", [get(B, C, A)] returns it and [get(D, Z)] returns [None]. *)
Theorem get_by_note_set :
  (forall self a b, Chords.get self a b None = Chords.get self b a None)
  /\ (forall self a b c a' b' c',
        [a; b; c] ≡ₚ [a'; b'; c'] ->
        Chords.get self a b (Some c) = Chords.get self a' b' (Some c'))
  /\ (forall self a b c,
        first_match (Chords.note_names_set (two_or_three a b c))
          (Chords.chords self) (Chords.get self a b c))
  /\ (forall self a b c ch,
        Chords.get self a b c = Some ch ->
        forall n, n ∈ two_or_three a b c ->
        exists m, m ∈ Chord.notes ch
                  /\ Note.note m +:+ Note.sharpness m
                     = Note.note n +:+ Note.sharpness n)
  /\ (exists stored,
        Chord.__init__ (Note.__init__ "Bb") (Note.__init__ "C") "X" None = Ok stored
        /\ forall py_hash,
             Chords.add py_hash Chords.__init__ stored
             = ({| Chords.chords := [stored] |}, Ok tt)
             /\ Chords.get {| Chords.chords := [stored] |}
                  (Note.__init__ "A#") (Note.__init__ "C") None = None
             /\ Chords.get {| Chords.chords := [stored] |}
                  (Note.__init__ "C") (Note.__init__ "Bb") None = Some stored)
  /\ (exists amaj,
        Chord.__init__ (Note.__init__ "A") (Note.__init__ "B") "Amaj"
          (Some (Note.__init__ "C")) = Ok amaj
        /\ forall py_hash,
             Chords.add py_hash Chords.__init__ amaj
             = ({| Chords.chords := [amaj] |}, Ok tt)
             /\ Chords.get {| Chords.chords := [amaj] |}
                  (Note.__init__ "B") (Note.__init__ "C")
                  (Some (Note.__init__ "A")) = Some amaj
             /\ Chords.get {| Chords.chords := [amaj] |}
                  (Note.__init__ "D") (Note.__init__ "Z") None = None).
Proof.
  split; [exact get_swap |].
  split; [exact get_perm |].
  split; [intros; apply get_loop_first_match |].
  split; [exact get_exact_text |].
  split.
  - eexists. split; [vm_compute; reflexivity |].
    intros py_hash. repeat split; vm_compute; reflexivity.
  - eexists. split; [vm_compute; reflexivity |].
    intros py_hash. repeat split; vm_compute; reflexivity.
Qed.

Lemma get_by_note_set_witness :
  Chords.get {| Chords.chords := [amaj] |} (Note.__init__ "A") (Note.__init__ "B")
    (Some (Note.__init__ "C"))
  = Chords.get {| Chords.chords := [amaj] |} (Note.__init__ "C") (Note.__init__ "A")
      (Some (Note.__init__ "B")).
Proof.
  apply get_by_note_set.
  change ([Note.__init__ "A"; Note.__init__ "B"; Note.__init__ "C"]
          ≡ₚ  Note.__init__ "C" :: [Note.__init__ "A"; Note.__init__ "B"]).
  symmetry. apply (Permutation_cons_append [_; _]).
Defined.

(** ** Chords.add *)

Section SetsOfNamedNotes.
Variable py_hash : string * string -> Z.

Lemma matches_named (entry key : Note.t) :
  named entry -> named key -> exists b, PySet.matches py_hash entry key = Ok b.
Proof.
  intros He Hk. unfold PySet.matches.
  destruct (_ =? _)%Z; [now apply eq_named | eauto].
Qed.

Lemma contains_named (table : list Note.t) (key : Note.t) :
  Forall named table -> named key ->
  exists b, PySet.contains py_hash table key = Ok b.
Proof.
  intros Ht Hk. induction Ht as [| e r He Hr IH]; simpl; [eauto |].
  destruct (matches_named e key He Hk) as [[] ->]; simpl; eauto.
Qed.

Lemma add_all_named (l : list Note.t) (table : list Note.t) :
  Forall named table -> Forall named l ->
  exists table', PySet.add_all py_hash table l = Ok table'
                 /\ Forall named table'.
Proof.
  intros Ht Hl. revert table Ht.
  induction Hl as [| x r Hx Hr IH]; intros table Ht; simpl; [eauto |].
  unfold PySet.add.
  destruct (contains_named table x Ht Hx) as [b ->]; simpl.
  apply IH. destruct b; [exact Ht |].
  apply Forall_app. split; [exact Ht | now constructor].
Qed.

Lemma issubset_named (a b : list Note.t) :
  Forall named a -> Forall named b ->
  exists r, PySet.issubset py_hash a b = Ok r.
Proof.
  intros Ha Hb. induction Ha as [| x r Hx Hr IH]; simpl; [eauto |].
  destruct (contains_named b x Hb Hx) as [[] ->]; simpl; eauto.
Qed.

Lemma chord_eq_named (c1 c2 : Chord.t) :
  chord_named c1 -> chord_named c2 ->
  exists r, Chord.__eq__ py_hash c1 c2 = Ok r.
Proof.
  intros H1 H2. unfold Chord.__eq__, PySet.of_list.
  destruct (add_all_named (Chord.notes c1) [] (List.Forall_nil _) H1) as [a [-> Ha]].
  destruct (add_all_named (Chord.notes c2) [] (List.Forall_nil _) H2) as [b [-> Hb]].
  simpl. unfold PySet.eq.
  destruct (_ =? _)%nat; [now apply issubset_named | eauto].
Qed.

Lemma add_loop_overlap (l : list Chord.t) (chord : Chord.t) :
  Forall chord_named l -> chord_named chord ->
  (Chords.add_loop py_hash l chord = Raise ChordOverlapException
   <-> exists e, e ∈ l /\ Chord.__eq__ py_hash e chord = Ok true)
  /\ (Chords.add_loop py_hash l chord = Ok tt
      <-> Forall (fun e => Chord.__eq__ py_hash e chord = Ok false) l)
  /\ (Chords.add_loop py_hash l chord = Raise ChordOverlapException
      \/ Chords.add_loop py_hash l chord = Ok tt).
Proof.
  intros Hl Hc. induction Hl as [| e r He Hr [IH1 [IH2 IH3]]]; simpl.
  - split; [| split].
    + split; [discriminate |].
      intros [e [H _]]. now apply elem_of_nil in H.
    + split; [constructor | reflexivity].
    + now right.
  - destruct (chord_eq_named e chord He Hc) as [[] Heq]; rewrite Heq; simpl.
    + split; [| split].
      * split; [| reflexivity].
        intros _. exists e. split; [left | exact Heq].
      * split; [discriminate |].
        intros H. apply Forall_cons in H as [H _]. congruence.
      * now left.
    + split; [| split].
      * rewrite IH1. split.
        -- intros [x [Hin Hx]]. exists x. split; [now right | exact Hx].
        -- intros [x [[-> | Hin]%elem_of_cons Hx]]; [congruence | eauto].
      * rewrite IH2. split.
        -- intros H. constructor; assumption.
        -- intros H. now apply Forall_cons in H as [_ H].
      * exact IH3.
Qed.
End SetsOfNamedNotes.

(** ** The set comparison under a collision-free hash *)

Section CollisionFree.
Variable py_hash : string * string -> Z.
Hypothesis py_hash_inj : forall k1 k2, py_hash k1 = py_hash k2 -> k1 = k2.

Lemma eq_refl_named (n : Note.t) : named n -> Note.__eq__ n n = Ok true.
Proof.
  intros [q Hq]%get_index_named. apply eq_true_iff.
  split; [| apply str_in_refl]. exists q, q. now rewrite Hq.
Qed.

Lemma matches_decide (entry key : Note.t) :
  named key ->
  PySet.matches py_hash entry key = Ok (bool_decide (entry = key)).
Proof.
  intros Hk. unfold PySet.matches, Note.__hash__.
  destruct (Z.eqb_spec (py_hash (Note.note entry, Note.sharpness entry))
              (py_hash (Note.note key, Note.sharpness key))) as [Hh | Hh].
  - apply py_hash_inj in Hh. injection Hh as Hn Hs.
    assert (entry = key) as -> by (destruct entry, key; simpl in *; congruence).
    rewrite bool_decide_eq_true_2 by reflexivity. now apply eq_refl_named.
  - rewrite bool_decide_eq_false_2; [reflexivity |]. intros ->. now apply Hh.
Qed.

Lemma contains_decide (table : list Note.t) (key : Note.t) :
  named key ->
  PySet.contains py_hash table key = Ok (bool_decide (key ∈ table)).
Proof.
  intros Hk. induction table as [| e r IH]; cbn [PySet.contains].
  - rewrite bool_decide_eq_false_2; [reflexivity | apply not_elem_of_nil].
  - rewrite (matches_decide e key Hk). cbn [bind].
    destruct (bool_decide_reflect (e = key)) as [-> | He].
    + rewrite bool_decide_eq_true_2; [reflexivity | left].
    + rewrite IH. f_equal. apply bool_decide_ext.
      rewrite elem_of_cons. split; [tauto | intros [-> | ?]; tauto].
Qed.

Lemma add_all_elements (l : list Note.t) (table : list Note.t) :
  Forall named l -> NoDup table ->
  exists table', PySet.add_all py_hash table l = Ok table'
                 /\ NoDup table'
                 /\ forall n, n ∈ table' <-> n ∈ table \/ n ∈ l.
Proof.
  intros Hl. revert table.
  induction Hl as [| x r Hx Hr IH]; intros table Hnd; cbn [PySet.add_all].
  - exists table. repeat split; [exact Hnd | tauto |].
    intros [H | H]; [exact H | now apply elem_of_nil in H].
  - unfold PySet.add. rewrite (contains_decide table x Hx). cbn [bind].
    destruct (bool_decide_reflect (x ∈ table)) as [Hin | Hin].
    + destruct (IH table Hnd) as [t' [Ht' [Hnd' Hel]]].
      exists t'. repeat split; [exact Ht' | exact Hnd' | |].
      * rewrite Hel, elem_of_cons. tauto.
      * rewrite Hel, elem_of_cons. intros [H | [-> | H]]; tauto.
    + destruct (IH (table ++ [x])) as [t' [Ht' [Hnd' Hel]]].
      { apply NoDup_app. repeat split; [exact Hnd | | apply NoDup_singleton].
        intros y Hy Hy'. apply list_elem_of_singleton in Hy'. now subst. }
      exists t'. repeat split; [exact Ht' | exact Hnd' | |].
      * rewrite Hel, elem_of_app, list_elem_of_singleton, elem_of_cons. tauto.
      * rewrite Hel, elem_of_app, list_elem_of_singleton, elem_of_cons. tauto.
Qed.

Lemma issubset_decide (a b : list Note.t) :
  Forall named a ->
  PySet.issubset py_hash a b = Ok (bool_decide (Forall (fun n => n ∈ b) a)).
Proof.
  intros Ha. induction Ha as [| x r Hx Hr IH]; cbn [PySet.issubset].
  - rewrite bool_decide_eq_true_2; [reflexivity | constructor].
  - rewrite (contains_decide b x Hx). cbn [bind].
    destruct (bool_decide_reflect (x ∈ b)) as [Hin | Hin].
    + rewrite IH. f_equal. apply bool_decide_ext.
      rewrite Forall_cons. tauto.
    + rewrite bool_decide_eq_false_2; [reflexivity |].
      rewrite Forall_cons. tauto.
Qed.

Lemma same_elements_length (a b : list Note.t) :
  NoDup a -> NoDup b ->
  (length a = length b /\ (forall n, n ∈ a -> n ∈ b))
  <-> (forall n, n ∈ a <-> n ∈ b).
Proof.
  intros Ha Hb. split.
  - intros [Hlen Hsub] n.
    assert (Hp : a ≡ₚ b).
    { apply submseteq_length_Permutation; [| lia].
      now apply NoDup_submseteq. }
    now rewrite Hp.
  - intros H. split; [| intros n; apply H].
    apply Permutation_length, NoDup_Permutation; assumption.
Qed.

(** Between chords of named notes the comparison of note sets is
    equality of the sets of notes, a note being its pair of strings. *)
Lemma chord_eq_same_notes (c1 c2 : Chord.t) :
  chord_named c1 -> chord_named c2 ->
  (Chord.__eq__ py_hash c1 c2 = Ok true
   <-> forall n, n ∈ Chord.notes c1 <-> n ∈ Chord.notes c2).
Proof.
  unfold chord_named. intros H1 H2. unfold Chord.__eq__, PySet.of_list.
  destruct (add_all_elements (Chord.notes c1) [] H1 NoDup_nil_2)
    as [a [-> [Hnda Ha]]].
  destruct (add_all_elements (Chord.notes c2) [] H2 NoDup_nil_2)
    as [b [-> [Hndb Hb]]].
  cbn [bind]. unfold PySet.eq.
  assert (Hna : Forall named a).
  { apply Forall_forall. intros n Hn. apply Ha in Hn as [Hn | Hn];
      [now apply elem_of_nil in Hn |].
    rewrite Forall_forall in H1. now apply H1. }
  rewrite (issubset_decide a b Hna).
  transitivity (forall n, n ∈ a <-> n ∈ b).
  - rewrite <- (same_elements_length a b Hnda Hndb).
    destruct (Nat.eqb_spec (length a) (length b)) as [Hlen | Hlen].
    + split.
      * intros H. injection H as H. apply bool_decide_eq_true in H.
        rewrite Forall_forall in H. tauto.
      * intros [_ H]. f_equal. apply bool_decide_eq_true.
        now apply Forall_forall.
    + split; [discriminate | tauto].
  - split; intros H n.
    + specialize (Ha n). specialize (Hb n). specialize (H n).
      rewrite elem_of_nil in Ha, Hb. tauto.
    + specialize (Ha n). specialize (Hb n). specialize (H n).
      rewrite elem_of_nil in Ha, Hb. tauto.
Qed.
End CollisionFree.


(** C5: for chords of named notes, [add] raises [ChordOverlapException]
    exactly when the set of notes of some registered chord compares equal
    to the set of notes of the new chord, and the registry is then as
    before; otherwise [add] returns and the registry is the old one with
    the new chord at the end.  Whatever [add] raises, the registry is
    unchanged.  When the builtin hash never collides, two sets of notes
    compare equal exactly when they hold the same notes. *)
Theorem add_overlap (py_hash : string * string -> Z)
    (self : Chords.t) (chord : Chord.t) :
  Forall chord_named (Chords.chords self) -> chord_named chord ->
  let overlap :=
    exists e, e ∈ Chords.chords self /\ Chord.__eq__ py_hash e chord = Ok true in
  ((Chords.add py_hash self chord).2 = Raise ChordOverlapException <-> overlap)
  /\ (overlap ->
      Chords.add py_hash self chord = (self, Raise ChordOverlapException))
  /\ (~ overlap ->
      Chords.add py_hash self chord
      = ({| Chords.chords := Chords.chords self ++ [chord] |}, Ok tt))
  /\ (forall e, (Chords.add py_hash self chord).2 = Raise e ->
                (Chords.add py_hash self chord).1 = self)
  /\ ((forall k1 k2, py_hash k1 = py_hash k2 -> k1 = k2) ->
      (overlap <->
       exists e, e ∈ Chords.chords self
                 /\ forall n, n ∈ Chord.notes e <-> n ∈ Chord.notes chord)).
Proof.
  intros Hself Hchord overlap.
  destruct (add_loop_overlap py_hash _ _ Hself Hchord) as [H1 [H2 H3]].
  fold overlap in H1. unfold Chords.add.
  split; [| split; [| split; [| split]]].
  - destruct H3 as [H3 | H3]; rewrite H3; simpl; [tauto |].
    rewrite <- H1, H3. tauto.
  - intros Ho. apply H1 in Ho. now rewrite Ho.
  - intros Hno. destruct H3 as [H3 | H3]; [tauto |]. now rewrite H3.
  - intros e. destruct (Chords.add_loop _ _ _); [discriminate | reflexivity].
  - intros Hinj. unfold overlap.
    rewrite Forall_forall in Hself.
    split; intros [e [Hin He]]; exists e; (split; [exact Hin |]).
    + now apply (chord_eq_same_notes py_hash Hinj e chord (Hself e Hin) Hchord).
    + now apply (chord_eq_same_notes py_hash Hinj e chord (Hself e Hin) Hchord).
Qed.

Lemma add_overlap_witness :
  Chords.add sample_hash {| Chords.chords := [amaj; e5] |} emaj7add9
  = ({| Chords.chords := [amaj; e5] |}, Raise ChordOverlapException).
Proof.
  apply (add_overlap sample_hash {| Chords.chords := [amaj; e5] |} emaj7add9).
  - repeat constructor; discriminate.
  - repeat constructor; discriminate.
  - exists e5. split; [right; left | vm_compute; reflexivity].
Defined.


(** ** Enharmonic chords in the registry *)

Lemma chord_init_Ok (n1 n2 : Note.t) (name : string) (n3 : option Note.t)
    (c : Chord.t) :
  Chord.__init__ n1 n2 name n3 = Ok c ->
  c = {| Chord.notes := Py.sorted Chord.sort_key (two_or_three n1 n2 n3);
         Chord.chord_name := name |}.
Proof.
  unfold Chord.__init__. destruct (_ || _); [discriminate |].
  intros H. now injection H as <-.
Qed.

Section SmallSets.
Variable py_hash : string * string -> Z.

Lemma matches_unequal (entry key : Note.t) :
  Note.__eq__ entry key = Ok false ->
  PySet.matches py_hash entry key = Ok false.
Proof. intros H. unfold PySet.matches. now destruct (_ =? _)%Z. Qed.

Lemma matches_other_hash (entry key : Note.t) :
  Note.__hash__ py_hash entry <> Note.__hash__ py_hash key ->
  PySet.matches py_hash entry key = Ok false.
Proof.
  intros H. unfold PySet.matches.
  now destruct (Z.eqb_spec (Note.__hash__ py_hash entry) (Note.__hash__ py_hash key)).
Qed.

Lemma of_list_two (x y : Note.t) :
  PySet.matches py_hash x y = Ok false ->
  PySet.of_list py_hash [x; y] = Ok [x; y].
Proof.
  intros H. unfold PySet.of_list, PySet.add_all, PySet.add, PySet.contains.
  cbn [bind app]. rewrite H. reflexivity.
Qed.

Lemma contains_two (e1 e2 key : Note.t) :
  PySet.matches py_hash e1 key = Ok false ->
  PySet.matches py_hash e2 key = Ok false ->
  PySet.contains py_hash [e1; e2] key = Ok false.
Proof. intros H1 H2. unfold PySet.contains. now rewrite H1, H2. Qed.

Lemma eq_first_missing (x : Note.t) (r b : list Note.t) :
  PySet.contains py_hash b x = Ok false ->
  PySet.eq py_hash (x :: r) b = Ok false.
Proof.
  intros H. unfold PySet.eq. destruct (_ =? _)%nat; [| reflexivity].
  cbn [PySet.issubset]. now rewrite H.
Qed.
End SmallSets.

(** C10: when the builtin hash tells the tuples ("A#", "") and ("Bb", "")
    apart, the registry that holds a chord built from A# and C accepts a
    chord built from Bb and C: [add] returns without
    [ChordOverlapException] and the registry holds both chords, although
    A# and Bb are equal under [__eq__]. *)
Theorem enharmonic_chords_both_registered (py_hash : string * string -> Z)
    (name1 name2 : string) (c1 c2 : Chord.t) :
  py_hash ("A#", "") <> py_hash ("Bb", "") ->
  Chord.__init__ (Note.__init__ "A#") (Note.__init__ "C") name1 None = Ok c1 ->
  Chord.__init__ (Note.__init__ "Bb") (Note.__init__ "C") name2 None = Ok c2 ->
  Chords.add py_hash Chords.__init__ c1 = ({| Chords.chords := [c1] |}, Ok tt)
  /\ Chords.add py_hash {| Chords.chords := [c1] |} c2
     = ({| Chords.chords := [c1; c2] |}, Ok tt)
  /\ Note.__eq__ (Note.__init__ "A#") (Note.__init__ "Bb") = Ok true
  /\ Note.__eq__ (Note.__init__ "Bb") (Note.__init__ "A#") = Ok true.
Proof.
  intros Hsep H1%chord_init_Ok H2%chord_init_Ok. subst c1 c2.
  split; [reflexivity |].
  split; [| split; reflexivity].
  assert (Hsep' : py_hash ("Bb", "") <> py_hash ("A#", "")) by congruence.
  unfold Chords.add, Chords.add_loop, Chord.__eq__.
  cbn [Chords.chords Chord.notes].
  change (Py.sorted Chord.sort_key
            (two_or_three (Note.__init__ "A#") (Note.__init__ "C") None))
    with [Note.__init__ "A#"; Note.__init__ "C"].
  change (Py.sorted Chord.sort_key
            (two_or_three (Note.__init__ "Bb") (Note.__init__ "C") None))
    with [Note.__init__ "Bb"; Note.__init__ "C"].
  rewrite !of_list_two by (now apply matches_unequal). cbn [bind].
  rewrite eq_first_missing; [reflexivity |].
  apply contains_two.
  - apply matches_other_hash. exact Hsep'.
  - now apply matches_unequal.
Qed.

Lemma enharmonic_chords_both_registered_witness :
  Chords.add sample_hash {| Chords.chords := [a_sharp_c] |} b_flat_c
  = ({| Chords.chords := [a_sharp_c; b_flat_c] |}, Ok tt).
Proof.
  apply (enharmonic_chords_both_registered sample_hash "X" "Y" a_sharp_c b_flat_c).
  - vm_compute. discriminate.
  - vm_compute. reflexivity.
  - vm_compute. reflexivity.
Defined.

(** The separation of the two hashes is what lets the second chord in:
    under a hash that sends every tuple to the same number the notes A#
    and Bb fall together and the second chord is refused. *)
Remark enharmonic_chords_overlap_on_collision :
  Chords.add (fun _ => 0%Z) {| Chords.chords := [a_sharp_c] |} b_flat_c
  = ({| Chords.chords := [a_sharp_c] |}, Raise ChordOverlapException).
Proof. vm_compute. reflexivity. Qed.

(** * Further properties of the code *)

(** ** Note: errors, range and case *)

Example get_content_docstring :
  NoteCollection.get_content
    (add_each NoteCollection.__init__ [Note.__init__ "C#"; Note.__init__ "Lb"]).1
  = Ok ("Notes:" +:+ Py.newline +:+ "  * C#" +:+ Py.newline +:+ "  * Lb").
Proof. vm_compute. reflexivity. Qed.

Example get_content_empty :
  NoteCollection.get_content NoteCollection.__init__
  = Ok ("Notes:" +:+ Py.newline +:+ "  Empty.").
Proof. vm_compute. reflexivity. Qed.

Lemma get_index_raises (n : Note.t) (e : exn) :
  Note.get_index n = Raise e -> e = IndexError /\ Note.note n = "".
Proof.
  unfold Note.get_index. destruct (Note.note n) as [| c0 [| c1 r]];
    intros H; [now injection H as <- | discriminate H | discriminate H].
Qed.

(** X1: [get_index] raises exactly for the empty name, and [__eq__]
    raises exactly when one of the two names is empty; the exception is
    [IndexError] and no other. *)
Theorem index_error_only_on_empty_name (x y : Note.t) :
  (Note.get_index x = Raise IndexError <-> Note.note x = "")
  /\ (forall e, Note.get_index x = Raise e -> e = IndexError)
  /\ (Note.__eq__ x y = Raise IndexError <-> Note.note x = "" \/ Note.note y = "")
  /\ (forall e, Note.__eq__ x y = Raise e -> e = IndexError).
Proof.
  split; [| split; [| split]].
  - split; [intros H; now apply get_index_raises in H | apply get_index_unnamed].
  - intros e H. now apply get_index_raises in H.
  - unfold Note.__eq__.
    destruct (Note.get_index x) as [p | e] eqn:Hx; simpl.
    + destruct (Note.get_index y) as [q | e] eqn:Hy; simpl.
      * apply get_index_Ok_named in Hx, Hy. unfold named in *.
        split; [discriminate | tauto].
      * apply get_index_raises in Hy as [-> Hy]. tauto.
    + apply get_index_raises in Hx as [-> Hx]. tauto.
  - unfold Note.__eq__. intros e.
    destruct (Note.get_index x) as [p | e1] eqn:Hx; simpl.
    + destruct (Note.get_index y) as [q | e2] eqn:Hy; simpl; [discriminate |].
      intros H. injection H as <-. now apply get_index_raises in Hy.
    + intros H. injection H as <-. now apply get_index_raises in Hx.
Qed.

Lemma index_error_only_on_empty_name_witness :
  Note.__eq__ (Note.__init__ "A") (Note.__init__ "") = Raise IndexError.
Proof.
  apply (index_error_only_on_empty_name (Note.__init__ "A") (Note.__init__ "")).
  right. reflexivity.
Defined.

Lemma in_range_two_characters (c0 c1 : ascii) (r sh : string) :
  in_range (Note.get_index
              {| Note.note := String c0 (String c1 r); Note.sharpness := sh |}).
Proof.
  unfold Note.get_index. cbn [Note.note].
  destruct (Ascii.eqb c1 "#"); [| destruct (Ascii.eqb c1 "b")];
    destruct c0 as [[] [] [] [] [] [] [] []];
    (eexists; split; [vm_compute; reflexivity | split; vm_compute; congruence]).
Qed.

Lemma in_range_one_letter (c : ascii) :
  is_letter c = true -> in_range (Note.get_index (Note.__init__ (String c ""))).
Proof.
  destruct c as [[] [] [] [] [] [] [] []]; vm_compute; try discriminate; intros _;
    (eexists; split; [reflexivity | split; vm_compute; congruence]).
Qed.

Lemma minus_one_other_character (c : ascii) :
  is_letter c = false ->
  Note.get_index (Note.__init__ (String c "")) = Ok (-1 # 1)%Q.
Proof.
  destruct c as [[] [] [] [] [] [] [] []]; vm_compute; try discriminate; reflexivity.
Qed.

(** X2: whatever the string, the index of the note built from it is at
    least 0 and below 26 as soon as the string has two characters or
    starts with a letter; for a single character that is not a letter it
    is -1; only the empty string gives an error. *)
Theorem get_index_of_any_string :
  (forall c0 c1 r, in_range (Note.get_index (Note.__init__ (String c0 (String c1 r)))))
  /\ (forall c, is_letter c = true ->
                in_range (Note.get_index (Note.__init__ (String c ""))))
  /\ (forall c, is_letter c = false ->
                Note.get_index (Note.__init__ (String c "")) = Ok (-1 # 1)%Q)
  /\ Note.get_index (Note.__init__ "") = Raise IndexError.
Proof.
  split; [| split; [| split]].
  - intros c0 c1 r. apply in_range_two_characters.
  - apply in_range_one_letter.
  - apply minus_one_other_character.
  - reflexivity.
Qed.

Lemma get_index_of_any_string_witness :
  in_range (Note.get_index (Note.__init__ "g"))
  /\ Note.get_index (Note.__init__ "#") = Ok (-1 # 1)%Q.
Proof.
  split.
  - apply get_index_of_any_string. reflexivity.
  - apply get_index_of_any_string. reflexivity.
Defined.

Lemma upper_of_lower (c : ascii) : Py.upper (Py.lower c) = Py.upper c.
Proof. destruct c as [[] [] [] [] [] [] [] []]; reflexivity. Qed.

Lemma upper_of_upper (c : ascii) : Py.upper (Py.upper c) = Py.upper c.
Proof. destruct c as [[] [] [] [] [] [] [] []]; reflexivity. Qed.

Lemma lower_of_lower (c : ascii) : Py.lower (Py.lower c) = Py.lower c.
Proof. destruct c as [[] [] [] [] [] [] [] []]; reflexivity. Qed.

Lemma lower_all_idem (s : string) : Py.lower_all (Py.lower_all s) = Py.lower_all s.
Proof.
  induction s as [| c s IH]; [reflexivity |].
  cbn [Py.lower_all]. now rewrite lower_of_lower, IH.
Qed.

(** X3: the constructor does not look at the case of its argument: two
    strings that agree once lower-cased give the same note; and building
    a note again from the string a note stores gives that note back. *)
Theorem note_init_ignores_case :
  (forall s t, Py.lower_all s = Py.lower_all t -> Note.__init__ s = Note.__init__ t)
  /\ (forall s, Note.__init__ (Note.note (Note.__init__ s)) = Note.__init__ s).
Proof.
  split.
  - intros [| c s] [| d t] H; try discriminate H; [reflexivity |].
    cbn [Py.lower_all] in H. injection H as Hc Hs.
    unfold Note.__init__, Py.capitalize.
    now rewrite <- (upper_of_lower c), <- (upper_of_lower d), Hc, Hs.
  - intros [| c s]; [reflexivity |].
    unfold Note.__init__, Py.capitalize. cbn [Note.note].
    now rewrite upper_of_upper, lower_all_idem.
Qed.

Lemma note_init_ignores_case_witness :
  Note.__init__ "c#" = Note.__init__ "C#" /\ Note.__init__ "AB" = Note.__init__ "ab".
Proof.
  split; apply note_init_ignores_case; reflexivity.
Defined.

(** X4: on notes built by the constructor [__eq__] is an equivalence:
    a note with a name equals itself, the answer does not depend on the
    side, and two notes equal to a third are equal. *)
Theorem note_eq_equivalence (s t u : string) :
  (s <> "" -> Note.__eq__ (Note.__init__ s) (Note.__init__ s) = Ok true)
  /\ Note.__eq__ (Note.__init__ s) (Note.__init__ t)
     = Note.__eq__ (Note.__init__ t) (Note.__init__ s)
  /\ (Note.__eq__ (Note.__init__ s) (Note.__init__ t) = Ok true ->
      Note.__eq__ (Note.__init__ t) (Note.__init__ u) = Ok true ->
      Note.__eq__ (Note.__init__ s) (Note.__init__ u) = Ok true).
Proof.
  split; [| split].
  - intros Hs. apply eq_refl_named. unfold named. now destruct s.
  - now apply unaltered_eq_sym.
  - apply note_eq_trans.
Qed.

Lemma note_eq_equivalence_witness :
  Note.__eq__ (Note.__init__ "z#") (Note.__init__ "z#") = Ok true
  /\ Note.__eq__ (Note.__init__ "z#") (Note.__init__ "ab") = Ok true.
Proof.
  split.
  - apply (note_eq_equivalence "z#" "" ""). discriminate.
  - apply (note_eq_equivalence "z#" "Z#" "ab"); reflexivity.
Defined.

(** ** NoteCollection: what add, pop and extract keep *)

Lemma FOP_app {A} (R : A -> A -> Prop) (l1 l2 : list A) :
  ForallOrdPairs R (l1 ++ l2)
  <-> ForallOrdPairs R l1 /\ ForallOrdPairs R l2
      /\ Forall (fun a => Forall (R a) l2) l1.
Proof.
  induction l1 as [| x l1 IH]; simpl.
  - split; [intros H; repeat split; [constructor | exact H | constructor] | tauto].
  - split.
    + intros H. inversion H as [| ? ? Hx Hr]; subst.
      apply IH in Hr as [H1 [H2 H3]]. apply Forall_app in Hx as [Hx1 Hx2].
      repeat split; [now constructor | exact H2 | now constructor].
    + intros [H1 [H2 H3]]. inversion H1 as [| ? ? Hx Hr]; subst.
      apply Forall_cons in H3 as [H3 H4].
      constructor; [apply Forall_app; now split | apply IH; now repeat split].
Qed.

Lemma FOP_remove {A} (R : A -> A -> Prop) (before after : list A) (x : A) :
  ForallOrdPairs R (before ++ x :: after) -> ForallOrdPairs R (before ++ after).
Proof.
  rewrite !FOP_app. intros [H1 [H2 H3]]. inversion H2; subst.
  repeat split; [exact H1 | assumption |].
  eapply Forall_impl; [exact H3 |]. intros a Ha. now apply Forall_cons in Ha as [_ Ha].
Qed.

Lemma unequal_pairs_snoc (l : list Note.t) (n : Note.t) :
  unequal_pairs l -> list_contains l n = Ok false -> unequal_pairs (l ++ [n]).
Proof.
  intros Hl Hc. apply list_contains_false in Hc. apply FOP_app.
  repeat split; [exact Hl | repeat constructor |].
  eapply Forall_impl; [exact Hc |]. intros a Ha. now repeat constructor.
Qed.

Lemma add_keeps_unequal_pairs (self : NoteCollection.t) (n : Note.t) :
  unequal_pairs (NoteCollection.notes self) ->
  unequal_pairs (NoteCollection.notes (NoteCollection.add self n).1).
Proof.
  intros H. unfold NoteCollection.add.
  destruct (list_contains _ _) as [[] |] eqn:Hc; simpl; try exact H.
  now apply unequal_pairs_snoc.
Qed.

(** The three ways the loop of [pop] ends. *)
Lemma pop_loop_cases (probe : Note.t) (rest seen : list Note.t) :
  (exists before n after,
      rest = before ++ n :: after
      /\ Forall (fun e => Note.__eq__ e probe = Ok false) before
      /\ Note.__eq__ n probe = Ok true
      /\ NoteCollection.pop_loop seen rest probe
         = (seen ++ before ++ after, Ok (Some n)))
  \/ (Forall (fun e => Note.__eq__ e probe = Ok false) rest
      /\ NoteCollection.pop_loop seen rest probe = (seen ++ rest, Ok None))
  \/ (exists before n after e,
        rest = before ++ n :: after
        /\ Forall (fun e => Note.__eq__ e probe = Ok false) before
        /\ Note.__eq__ n probe = Raise e
        /\ NoteCollection.pop_loop seen rest probe = (seen ++ rest, Raise e)).
Proof.
  revert seen. induction rest as [| x r IH]; intros seen; cbn [NoteCollection.pop_loop].
  - right; left. split; [constructor | now rewrite app_nil_r].
  - destruct (Note.__eq__ x probe) as [[] | e] eqn:Hx.
    + left. exists [], x, r. repeat split; [constructor | exact Hx].
    + destruct (IH (seen ++ [x])) as [H | [H | H]].
      * destruct H as [before [n [after [-> [Hb [Hn Hp]]]]]].
        left. exists (x :: before), n, after.
        repeat split; [now constructor | exact Hn |].
        rewrite Hp, <- app_assoc. reflexivity.
      * destruct H as [Hr Hp]. right; left.
        split; [now constructor |]. rewrite Hp, <- app_assoc. reflexivity.
      * destruct H as [before [n [after [e [-> [Hb [Hn Hp]]]]]]].
        right; right. exists (x :: before), n, after, e.
        repeat split; [now constructor | exact Hn |].
        rewrite Hp, <- app_assoc. reflexivity.
    + right; right. exists [], x, r, e. repeat split; [constructor | exact Hx].
Qed.

Lemma collection_eta (self : NoteCollection.t) :
  {| NoteCollection.notes := NoteCollection.notes self |} = self.
Proof. now destruct self. Qed.

Lemma pop_cases (self : NoteCollection.t) (name : string) :
  let probe := Note.__init__ name in
  (exists before n after,
      NoteCollection.notes self = before ++ n :: after
      /\ Forall (fun e => Note.__eq__ e probe = Ok false) before
      /\ Note.__eq__ n probe = Ok true
      /\ NoteCollection.pop self name
         = ({| NoteCollection.notes := before ++ after |}, Ok (Some n)))
  \/ (Forall (fun e => Note.__eq__ e probe = Ok false) (NoteCollection.notes self)
      /\ NoteCollection.pop self name = (self, Ok None))
  \/ (exists before n after e,
        NoteCollection.notes self = before ++ n :: after
        /\ Forall (fun e => Note.__eq__ e probe = Ok false) before
        /\ Note.__eq__ n probe = Raise e
        /\ NoteCollection.pop self name = (self, Raise e)).
Proof.
  intros probe. unfold NoteCollection.pop. fold probe.
  destruct (pop_loop_cases probe (NoteCollection.notes self) []) as [H | [H | H]].
  - destruct H as [before [n [after [Hs [Hb [Hn Hp]]]]]].
    left. exists before, n, after. rewrite Hp. auto.
  - destruct H as [Hr Hp]. right; left. rewrite Hp. cbn [app].
    now rewrite collection_eta.
  - destruct H as [before [n [after [e [Hs [Hb [Hn Hp]]]]]]].
    right; right. exists before, n, after, e. rewrite Hp. cbn [app].
    now rewrite collection_eta.
Qed.

(** X5: [pop(name)] removes and returns the first note that equals
    [Note(name)], the notes before and after it staying in place; when no
    note equals it, [pop] returns [None] and the collection is as before;
    when a comparison raises before a match, the exception propagates and
    the collection is as before. *)
Theorem pop_outcomes (self : NoteCollection.t) (name : string) :
  let probe := Note.__init__ name in
  (exists before n after,
      NoteCollection.notes self = before ++ n :: after
      /\ Forall (fun e => Note.__eq__ e probe = Ok false) before
      /\ Note.__eq__ n probe = Ok true
      /\ NoteCollection.pop self name
         = ({| NoteCollection.notes := before ++ after |}, Ok (Some n)))
  \/ (Forall (fun e => Note.__eq__ e probe = Ok false) (NoteCollection.notes self)
      /\ NoteCollection.pop self name = (self, Ok None))
  \/ (exists before n after e,
        NoteCollection.notes self = before ++ n :: after
        /\ Forall (fun e => Note.__eq__ e probe = Ok false) before
        /\ Note.__eq__ n probe = Raise e
        /\ NoteCollection.pop self name = (self, Raise e)).
Proof. exact (pop_cases self name). Qed.

Lemma pop_keeps_unequal_pairs (self : NoteCollection.t) (name : string) :
  unequal_pairs (NoteCollection.notes self) ->
  unequal_pairs (NoteCollection.notes (NoteCollection.pop self name).1).
Proof.
  intros H. destruct (pop_cases self name) as [Ho | [Ho | Ho]].
  - destruct Ho as [before [n [after [Hs [_ [_ ->]]]]]]. cbn.
    rewrite Hs in H. now apply FOP_remove in H.
  - destruct Ho as [_ ->]. exact H.
  - destruct Ho as [before [n [after [e [_ [_ [_ ->]]]]]]]. exact H.
Qed.

Lemma add_each_keeps_unequal_pairs (l : list Note.t) (self : NoteCollection.t) :
  unequal_pairs (NoteCollection.notes self) ->
  unequal_pairs (NoteCollection.notes (add_each self l).1).
Proof.
  revert self. induction l as [| n r IH]; intros self H; cbn [add_each]; [exact H |].
  pose proof (add_keeps_unequal_pairs self n H) as Ha.
  destruct (NoteCollection.add self n) as [self' [[] | e]]; [now apply IH | exact Ha].
Qed.

(** X6: a collection never holds two notes of which the earlier equals
    the later: the empty collection has none, and [add], [pop] and
    [extract] keep it so; hence so does every collection filled by a
    sequence of [add]. *)
Theorem collection_keeps_unequal_pairs :
  unequal_pairs (NoteCollection.notes NoteCollection.__init__)
  /\ (forall self n,
        unequal_pairs (NoteCollection.notes self) ->
        unequal_pairs (NoteCollection.notes (NoteCollection.add self n).1))
  /\ (forall self name,
        unequal_pairs (NoteCollection.notes self) ->
        unequal_pairs (NoteCollection.notes (NoteCollection.pop self name).1))
  /\ (forall self,
        unequal_pairs (NoteCollection.notes (NoteCollection.extract self).1))
  /\ (forall l,
        unequal_pairs (NoteCollection.notes (add_each NoteCollection.__init__ l).1)).
Proof.
  split; [constructor |].
  split; [exact add_keeps_unequal_pairs |].
  split; [exact pop_keeps_unequal_pairs |].
  split; [intros self; constructor |].
  intros l. apply add_each_keeps_unequal_pairs. constructor.
Qed.

Lemma collection_keeps_unequal_pairs_witness :
  unequal_pairs
    (NoteCollection.notes
       (NoteCollection.add {| NoteCollection.notes := [Note.__init__ "C"] |}
          (Note.__init__ "A#")).1).
Proof.
  apply collection_keeps_unequal_pairs. repeat constructor.
Defined.

Lemma add_each_distinct (l : list Note.t) (self : NoteCollection.t) :
  unequal_pairs (NoteCollection.notes self ++ l) ->
  add_each self l
  = ({| NoteCollection.notes := NoteCollection.notes self ++ l |}, Ok tt).
Proof.
  revert self. induction l as [| n r IH]; intros self H; cbn [add_each].
  - now rewrite app_nil_r, collection_eta.
  - assert (Hc : list_contains (NoteCollection.notes self) n = Ok false).
    { apply list_contains_false. apply FOP_app in H as [_ [_ H]].
      eapply Forall_impl; [exact H |]. intros a Ha.
      now apply Forall_cons in Ha as [Ha _]. }
    unfold NoteCollection.add. rewrite Hc.
    rewrite IH; cbn [NoteCollection.notes]; rewrite <- app_assoc; [reflexivity | exact H].
Qed.

(** X7: notes of which none equals a later one, added one after the
    other to the empty collection, are all kept, in the order of the
    calls; [extract] then returns them in that order and leaves the
    collection empty, so that a second [extract] returns the empty
    list. *)
Theorem extract_returns_in_order_added (l : list Note.t) :
  unequal_pairs l ->
  let filled := (add_each NoteCollection.__init__ l).1 in
  add_each NoteCollection.__init__ l = ({| NoteCollection.notes := l |}, Ok tt)
  /\ NoteCollection.extract filled = (NoteCollection.__init__, l)
  /\ NoteCollection.extract (NoteCollection.extract filled).1
     = (NoteCollection.__init__, []).
Proof.
  intros H filled. subst filled.
  rewrite (add_each_distinct l NoteCollection.__init__ H). repeat split.
Qed.

Lemma extract_returns_in_order_added_witness :
  NoteCollection.extract
    (add_each NoteCollection.__init__ [Note.__init__ "A"; Note.__init__ "C"]).1
  = (NoteCollection.__init__, [Note.__init__ "A"; Note.__init__ "C"]).
Proof.
  apply (extract_returns_in_order_added [Note.__init__ "A"; Note.__init__ "C"]).
  repeat constructor.
Defined.

Lemma snoc_split_inner {A} (l before after : list A) (p n a : A) :
  l ++ [p] = before ++ n :: a :: after -> n ∈ l.
Proof.
  revert l. induction before as [| b before IH]; intros [| x l] H;
    cbn [app] in H; injection H as H1 H2.
  - discriminate H2.
  - subst. left.
  - destruct before; discriminate H2.
  - right. now apply IH.
Qed.

(** X8: when no stored note equals [Note(name)] and [name] is not empty,
    [add(Note(name))] appends the note, and [pop(name)] right after
    returns that note and leaves the collection as it was before the
    [add]. *)
Theorem add_then_pop (self : NoteCollection.t) (name : string) :
  name <> "" ->
  Forall (fun e => Note.__eq__ e (Note.__init__ name) = Ok false)
         (NoteCollection.notes self) ->
  NoteCollection.add self (Note.__init__ name)
  = ({| NoteCollection.notes := NoteCollection.notes self ++ [Note.__init__ name] |},
     Ok tt)
  /\ NoteCollection.pop (NoteCollection.add self (Note.__init__ name)).1 name
     = (self, Ok (Some (Note.__init__ name))).
Proof.
  intros Hname Hall.
  assert (Hadd : NoteCollection.add self (Note.__init__ name)
                 = ({| NoteCollection.notes :=
                         NoteCollection.notes self ++ [Note.__init__ name] |}, Ok tt)).
  { unfold NoteCollection.add.
    now rewrite (proj2 (list_contains_false _ _) Hall). }
  split; [exact Hadd |]. rewrite Hadd. cbn [fst].
  assert (Hrefl : Note.__eq__ (Note.__init__ name) (Note.__init__ name) = Ok true).
  { apply eq_refl_named. unfold named. now destruct name. }
  destruct (pop_cases
              {| NoteCollection.notes := NoteCollection.notes self ++ [Note.__init__ name] |}
              name) as [Ho | [Ho | Ho]]; cbn [NoteCollection.notes] in Ho.
  - destruct Ho as [before [n [after [Hs [Hb [Hn ->]]]]]].
    destruct after as [| a after].
    + apply app_inj_tail in Hs as [<- <-]. now rewrite app_nil_r, collection_eta.
    + exfalso.
      pose proof (snoc_split_inner _ _ _ _ _ _ Hs) as Hin.
      rewrite Forall_forall in Hall. rewrite (Hall n Hin) in Hn. discriminate Hn.
  - destruct Ho as [Hf _]. apply Forall_app in Hf as [_ Hf].
    apply Forall_cons in Hf as [Hf _]. rewrite Hrefl in Hf. discriminate Hf.
  - destruct Ho as [before [n [after [e [Hs [_ [Hn _]]]]]]].
    exfalso.
    assert (Hin : n ∈ NoteCollection.notes self ++ [Note.__init__ name])
      by (rewrite Hs; apply elem_of_app; right; left).
    apply elem_of_app in Hin as [Hin | Hin].
    + rewrite Forall_forall in Hall. rewrite (Hall n Hin) in Hn. discriminate Hn.
    + apply list_elem_of_singleton in Hin. subst n. rewrite Hrefl in Hn. discriminate Hn.
Qed.

Lemma add_then_pop_witness :
  NoteCollection.pop
    (NoteCollection.add {| NoteCollection.notes := [Note.__init__ "A"] |}
       (Note.__init__ "eb")).1 "eb"
  = ({| NoteCollection.notes := [Note.__init__ "A"] |}, Ok (Some (Note.__init__ "eb"))).
Proof.
  apply (add_then_pop {| NoteCollection.notes := [Note.__init__ "A"] |} "eb").
  - discriminate.
  - repeat constructor.
Defined.

Lemma eq_false_or_true_named (x y : Note.t) :
  named x -> named y ->
  Note.__eq__ x y = Ok true \/ Note.__eq__ x y = Ok false.
Proof. intros Hx Hy. destruct (eq_named x y Hx Hy) as [[] ->]; auto. Qed.

(** X9: in a collection of unaltered notes none of which equals a later
    one, the note that [pop(name)] returns was the only one equal to
    [Note(name)]: a second [pop(name)] returns [None] and removes
    nothing. *)
Theorem pop_removes_the_only_match (self self' : NoteCollection.t)
    (name : string) (n : Note.t) :
  unequal_pairs (NoteCollection.notes self) ->
  Forall unaltered (NoteCollection.notes self) ->
  NoteCollection.pop self name = (self', Ok (Some n)) ->
  NoteCollection.pop self' name = (self', Ok None).
Proof.
  intros Hfop Hun Hpop. set (probe := Note.__init__ name).
  destruct (pop_cases self name) as [Ho | [Ho | Ho]].
  - destruct Ho as [before [m [after [Hs [Hb [Hm Hp]]]]]]. fold probe in Hb, Hm.
    rewrite Hp in Hpop. injection Hpop as <- <-.
    assert (Hafter : Forall (fun e => Note.__eq__ e probe = Ok false) after).
    { rewrite Hs in Hfop, Hun.
      apply FOP_app in Hfop as [_ [Hfop _]]. inversion Hfop as [| ? ? Hm_after _]; subst.
      apply Forall_app in Hun as [_ Hun]. apply Forall_cons in Hun as [Hum Hun].
      rewrite Forall_forall in Hm_after, Hun. apply Forall_forall. intros e He.
      pose proof (Hm_after e He) as Hme.
      apply eq_Ok_named in Hme as Hnamed. destruct Hnamed as [_ Hne].
      apply eq_Ok_named in Hm as Hnamed. destruct Hnamed as [_ Hnp].
      destruct (eq_false_or_true_named e probe Hne Hnp) as [Ht | Hf]; [| exact Hf].
      exfalso.
      assert (Hpe : Note.__eq__ probe e = Ok true).
      { rewrite (unaltered_eq_sym probe e); [exact Ht | reflexivity |].
        apply Hun. exact He. }
      rewrite (note_eq_trans m probe e Hm Hpe) in Hme. discriminate Hme. }
    destruct (pop_cases {| NoteCollection.notes := before ++ after |} name)
      as [Ho | [Ho | Ho]]; cbn [NoteCollection.notes] in Ho; fold probe in Ho.
    + destruct Ho as [b2 [m2 [a2 [Hs2 [_ [Hm2 _]]]]]]. exfalso.
      assert (Hin : m2 ∈ before ++ after)
        by (rewrite Hs2; apply elem_of_app; right; left).
      assert (Hall : Forall (fun e => Note.__eq__ e probe = Ok false) (before ++ after))
        by (apply Forall_app; now split).
      rewrite Forall_forall in Hall.
      rewrite (Hall m2 Hin) in Hm2. discriminate Hm2.
    + now destruct Ho as [_ ->].
    + destruct Ho as [b2 [m2 [a2 [e [Hs2 [_ [Hm2 _]]]]]]]. exfalso.
      assert (Hin : m2 ∈ before ++ after)
        by (rewrite Hs2; apply elem_of_app; right; left).
      assert (Hall : Forall (fun e => Note.__eq__ e probe = Ok false) (before ++ after))
        by (apply Forall_app; now split).
      rewrite Forall_forall in Hall.
      rewrite (Hall m2 Hin) in Hm2. discriminate Hm2.
  - destruct Ho as [_ Hp]. rewrite Hp in Hpop. discriminate Hpop.
  - destruct Ho as [before [m [after [e [_ [_ [_ Hp]]]]]]].
    rewrite Hp in Hpop. discriminate Hpop.
Qed.

Lemma pop_removes_the_only_match_witness :
  NoteCollection.pop {| NoteCollection.notes := [Note.__init__ "A"] |} "c"
  = ({| NoteCollection.notes := [Note.__init__ "A"] |}, Ok None).
Proof.
  apply (pop_removes_the_only_match
           {| NoteCollection.notes := [Note.__init__ "A"; Note.__init__ "C"] |}
           {| NoteCollection.notes := [Note.__init__ "A"] |} "c" (Note.__init__ "C")).
  - repeat constructor.
  - repeat constructor.
  - reflexivity.
Defined.

Lemma eq_with_empty_name (x : Note.t) :
  Note.__eq__ x (Note.__init__ "") = Raise IndexError.
Proof.
  unfold Note.__eq__. destruct (Note.get_index x) as [p | e] eqn:Hx; [reflexivity |].
  now apply get_index_raises in Hx as [-> _].
Qed.

(** X10: the empty name is accepted only by the empty collection: there
    [add(Note(""))] stores the note and [pop("")] returns [None]; on any
    collection that holds a note both raise [IndexError] and leave the
    collection as it is. *)
Theorem empty_name_raises (self : NoteCollection.t) :
  NoteCollection.add NoteCollection.__init__ (Note.__init__ "")
  = ({| NoteCollection.notes := [Note.__init__ ""] |}, Ok tt)
  /\ NoteCollection.pop NoteCollection.__init__ "" = (NoteCollection.__init__, Ok None)
  /\ (NoteCollection.notes self <> [] ->
      NoteCollection.add self (Note.__init__ "") = (self, Raise IndexError)
      /\ NoteCollection.pop self "" = (self, Raise IndexError)).
Proof.
  split; [reflexivity |]. split; [reflexivity |].
  destruct self as [[| x l]]; [intros H; exfalso; now apply H |]. intros _.
  unfold NoteCollection.add, NoteCollection.pop.
  cbn [NoteCollection.notes list_contains NoteCollection.pop_loop].
  rewrite (eq_with_empty_name x). split; reflexivity.
Qed.

Lemma empty_name_raises_witness :
  NoteCollection.pop {| NoteCollection.notes := [Note.__init__ "A"] |} ""
  = ({| NoteCollection.notes := [Note.__init__ "A"] |}, Raise IndexError).
Proof.
  apply (empty_name_raises {| NoteCollection.notes := [Note.__init__ "A"] |}).
  discriminate.
Defined.

(** ** The order of sorted *)

Lemma ascii_compare_refl (a : ascii) : Ascii.compare a a = Eq.
Proof. unfold Ascii.compare. apply N.compare_refl. Qed.

Lemma ascii_compare_lt_trans (a b c : ascii) :
  Ascii.compare a b = Lt -> Ascii.compare b c = Lt -> Ascii.compare a c = Lt.
Proof.
  unfold Ascii.compare. rewrite !N.compare_lt_iff. apply N.lt_trans.
Qed.

Lemma string_compare_refl (s : string) : String.compare s s = Eq.
Proof.
  induction s as [| a s IH]; [reflexivity |].
  cbn [String.compare]. now rewrite ascii_compare_refl.
Qed.

Lemma string_compare_lt_trans (s t u : string) :
  String.compare s t = Lt -> String.compare t u = Lt -> String.compare s u = Lt.
Proof.
  revert t u. induction s as [| a s IH]; intros [| b t] [| c u];
    cbn [String.compare]; try discriminate; try reflexivity.
  destruct (Ascii.compare a b) eqn:Hab; try discriminate;
    destruct (Ascii.compare b c) eqn:Hbc; try discriminate; intros H1 H2.
  - apply Ascii.compare_eq_iff in Hab, Hbc. subst.
    rewrite ascii_compare_refl. now apply (IH t u).
  - apply Ascii.compare_eq_iff in Hab. subst. now rewrite Hbc.
  - apply Ascii.compare_eq_iff in Hbc. subst. now rewrite Hab.
  - now rewrite (ascii_compare_lt_trans a b c Hab Hbc).
Qed.

Lemma string_leb_trans (s t u : string) :
  String.leb s t = true -> String.leb t u = true -> String.leb s u = true.
Proof.
  unfold String.leb.
  destruct (String.compare s t) eqn:Hst; try discriminate;
    destruct (String.compare t u) eqn:Htu; try discriminate; intros _ _.
  - apply String.compare_eq_iff in Hst, Htu. subst. now rewrite string_compare_refl.
  - apply String.compare_eq_iff in Hst. subst. now rewrite Htu.
  - apply String.compare_eq_iff in Htu. subst. now rewrite Hst.
  - now rewrite (string_compare_lt_trans s t u Hst Htu).
Qed.

Lemma key_le_trans (a b c : string * string) :
  Py.key_le a b = true -> Py.key_le b c = true -> Py.key_le a c = true.
Proof.
  unfold Py.key_le.
  destruct (String.compare a.1 b.1) eqn:Hab; try discriminate;
    destruct (String.compare b.1 c.1) eqn:Hbc; try discriminate; intros H1 H2.
  - apply String.compare_eq_iff in Hab, Hbc. rewrite Hab, Hbc, string_compare_refl.
    now apply (string_leb_trans _ b.2).
  - apply String.compare_eq_iff in Hab. now rewrite Hab, Hbc.
  - apply String.compare_eq_iff in Hbc. now rewrite <- Hbc, Hab.
  - now rewrite (string_compare_lt_trans _ _ _ Hab Hbc).
Qed.

Lemma key_le_total (a b : string * string) :
  Py.key_le a b = false -> Py.key_le b a = true.
Proof.
  unfold Py.key_le. rewrite (String.compare_antisym b.1 a.1).
  destruct (String.compare a.1 b.1) eqn:Hab; cbn [CompOpp]; try discriminate.
  - intros H. destruct (String.leb_total a.2 b.2) as [Ht | Ht]; congruence.
  - reflexivity.
Qed.

Lemma key_le_antisym (a b : string * string) :
  Py.key_le a b = true -> Py.key_le b a = true -> a = b.
Proof.
  unfold Py.key_le. rewrite (String.compare_antisym b.1 a.1).
  destruct (String.compare a.1 b.1) eqn:Hab; cbn [CompOpp]; try discriminate.
  intros H1 H2. apply String.compare_eq_iff in Hab.
  destruct a, b; cbn [fst snd] in *. f_equal; [exact Hab |].
  now apply String.leb_antisym.
Qed.

Lemma key_order_trans : Transitive key_order.
Proof. intros a b c. unfold key_order. apply key_le_trans. Qed.

Lemma key_order_antisym : AntiSymm (=) key_order.
Proof.
  intros a b Hab Hba. unfold key_order in *.
  pose proof (key_le_antisym _ _ Hab Hba) as H.
  destruct a, b. unfold Chord.sort_key in H. cbn in H. congruence.
Qed.

Lemma insert_sorted_Sorted (x : Note.t) (l : list Note.t) :
  Sorted key_order l -> Sorted key_order (Py.insert_sorted Chord.sort_key x l).
Proof.
  induction l as [| y r IH]; intros Hs; cbn [Py.insert_sorted].
  - repeat constructor.
  - destruct (Py.key_le (Chord.sort_key y) (Chord.sort_key x)) eqn:Hyx.
    + inversion Hs as [| ? ? Hr Hhd]; subst.
      constructor; [now apply IH |].
      destruct r as [| z r]; cbn [Py.insert_sorted].
      * now constructor.
      * destruct (Py.key_le (Chord.sort_key z) (Chord.sort_key x));
          constructor; [now inversion Hhd | exact Hyx].
    + constructor; [exact Hs |]. constructor. now apply key_le_total.
Qed.

Lemma sorted_Sorted (l : list Note.t) : Sorted key_order (Py.sorted Chord.sort_key l).
Proof.
  unfold Py.sorted.
  enough (H : forall acc, Sorted key_order acc ->
    Sorted key_order (fold_left (fun acc x => Py.insert_sorted Chord.sort_key x acc) l acc))
    by (apply H; constructor).
  induction l as [| x l IH]; intros acc Hacc; cbn [fold_left]; [exact Hacc |].
  apply IH. now apply insert_sorted_Sorted.
Qed.

Lemma sorted_of_perm (l l' : list Note.t) :
  l ≡ₚ l' -> Py.sorted Chord.sort_key l = Py.sorted Chord.sort_key l'.
Proof.
  intros H.
  apply (@Sorted_unique _ key_order key_order_trans key_order_antisym);
    try apply sorted_Sorted.
  now rewrite !sorted_perm.
Qed.

(** ** NoteCollection.get_content *)

Lemma unique_loop_extends (l acc u : list Note.t) :
  NoteCollection.unique_loop acc l = Ok u -> exists suffix, u = acc ++ suffix.
Proof.
  revert acc. induction l as [| x l IH]; intros acc; cbn [NoteCollection.unique_loop].
  - intros H. injection H as <-. exists []. now rewrite app_nil_r.
  - destruct (list_contains acc x) as [[] |]; cbn [bind]; try discriminate.
    + apply IH.
    + intros [suffix ->]%IH. exists (x :: suffix). now rewrite <- app_assoc.
Qed.

Lemma unique_loop_distinct (l acc : list Note.t) :
  unequal_pairs (acc ++ l) -> NoteCollection.unique_loop acc l = Ok (acc ++ l).
Proof.
  revert acc. induction l as [| x l IH]; intros acc H; cbn [NoteCollection.unique_loop].
  - now rewrite app_nil_r.
  - assert (Hc : list_contains acc x = Ok false).
    { apply list_contains_false. apply FOP_app in H as [_ [_ H]].
      eapply Forall_impl; [exact H |]. intros a Ha.
      now apply Forall_cons in Ha as [Ha _]. }
    rewrite Hc. cbn [bind]. rewrite IH; rewrite <- app_assoc; [reflexivity | exact H].
Qed.

Lemma unequal_pairs_perm (l l' : list Note.t) :
  l ≡ₚ l' -> Forall unaltered l -> unequal_pairs l -> unequal_pairs l'.
Proof.
  unfold unequal_pairs.
  induction 1 as [| x l l' Hp IH | x y l | l1 l2 l3 Hp1 IH1 Hp2 IH2];
    intros Hun Hfop.
  - constructor.
  - apply Forall_cons in Hun as [Hx Hun]. inversion Hfop as [| ? ? Hxl Hl]; subst.
    constructor; [now rewrite <- Hp | now apply IH].
  - apply Forall_cons in Hun as [Hy Hun]. apply Forall_cons in Hun as [Hx Hun].
    inversion Hfop as [| ? ? Hyl Hl]; subst. inversion Hl as [| ? ? Hxl Hl']; subst.
    apply Forall_cons in Hyl as [Hyx Hyl].
    constructor; [| now constructor].
    constructor; [| exact Hxl]. now rewrite (unaltered_eq_sym x y).
  - apply IH2; [now rewrite <- Hp1 | now apply IH1].
Qed.

Lemma render_loop_listing (l : list Note.t) (content : string) :
  NoteCollection.render_loop (content +:+ Py.newline) l
  = content +:+ listing l +:+ Py.newline.
Proof.
  revert content. induction l as [| n l IH]; intros content;
    cbn [NoteCollection.render_loop listing]; [reflexivity |].
  replace ((content +:+ Py.newline) +:+ "  * " +:+ Note.note n +:+ Note.sharpness n
           +:+ Py.newline)
    with ((content +:+ Py.newline +:+ "  * " +:+ text n) +:+ Py.newline)
    by (unfold text; now rewrite !string_app_assoc).
  rewrite IH. now rewrite !string_app_assoc.
Qed.

Lemma rstrip_not_space (c : ascii) (r : string) :
  Py.is_space c = false -> Py.rstrip (String c r) = String c (Py.rstrip r).
Proof. intros H. cbn [Py.rstrip]. rewrite H. now destruct (Py.rstrip r). Qed.

Lemma rstrip_app (a b : string) :
  Py.rstrip b <> "" -> Py.rstrip (a +:+ b) = a +:+ Py.rstrip b.
Proof.
  intros Hb. induction a as [| c a IH]; [reflexivity |].
  change (String c a +:+ b) with (String c (a +:+ b)).
  change (String c a +:+ Py.rstrip b) with (String c (a +:+ Py.rstrip b)).
  cbn [Py.rstrip]. rewrite IH.
  destruct (a +:+ Py.rstrip b) as [| d r] eqn:Hd; [| reflexivity].
  destruct a; [cbn in Hd; contradiction | discriminate Hd].
Qed.

Lemma rstrip_newline (s : string) : Py.rstrip (s +:+ Py.newline) = Py.rstrip s.
Proof.
  induction s as [| c s IH]; [reflexivity |].
  change (String c s +:+ Py.newline) with (String c (s +:+ Py.newline)).
  cbn [Py.rstrip]. now rewrite IH.
Qed.

Lemma rstrip_listing (l : list Note.t) :
  l <> [] -> Forall tidy l ->
  Py.rstrip (listing l) = listing l /\ listing l <> "".
Proof.
  induction l as [| n l IH]; [congruence |]. intros _ Ht.
  apply Forall_cons in Ht as [[Hn1 Hn2] Ht]. cbn [listing].
  split; [| discriminate].
  destruct l as [| m l].
  - cbn [listing]. rewrite string_app_nil_r.
    replace (Py.newline +:+ "  * " +:+ text n)
      with ((Py.newline +:+ "  * ") +:+ text n) by now rewrite !string_app_assoc.
    rewrite rstrip_app; [now rewrite Hn1 | now rewrite Hn1].
  - destruct (IH ltac:(discriminate) Ht) as [IH1 IH2].
    replace (Py.newline +:+ "  * " +:+ text n +:+ listing (m :: l))
      with ((Py.newline +:+ "  * " +:+ text n) +:+ listing (m :: l))
      by now rewrite !string_app_assoc.
    rewrite rstrip_app; [now rewrite IH1 | now rewrite IH1].
Qed.

Lemma strip_header (T : string) :
  Py.strip ("Notes:" +:+ Py.newline +:+ "  *" +:+ T)
  = "Notes:" +:+ Py.newline +:+ "  *" +:+ Py.rstrip T.
Proof.
  unfold Py.strip.
  change (Py.lstrip ("Notes:" +:+ Py.newline +:+ "  *" +:+ T))
    with (("Notes:" +:+ Py.newline +:+ "  ") +:+ String "*" T).
  rewrite rstrip_app; rewrite rstrip_not_space by reflexivity;
    [reflexivity | discriminate].
Qed.

Lemma strip_listing (l : list Note.t) :
  l <> [] -> Forall tidy l ->
  Py.strip ("Notes:" +:+ listing l +:+ Py.newline) = "Notes:" +:+ listing l.
Proof.
  intros Hne Ht. destruct (rstrip_listing l Hne Ht) as [H1 H2].
  unfold Py.strip.
  change (Py.lstrip ("Notes:" +:+ listing l +:+ Py.newline))
    with ("Notes:" +:+ listing l +:+ Py.newline).
  rewrite <- string_app_assoc, rstrip_newline.
  rewrite rstrip_app; now rewrite H1.
Qed.

Lemma get_content_nonempty (self : NoteCollection.t) (txt : string) :
  NoteCollection.notes self <> [] ->
  NoteCollection.get_content self = Ok txt ->
  exists rest, txt = "Notes:" +:+ Py.newline +:+ "  *" +:+ rest.
Proof.
  intros Hne. unfold NoteCollection.get_content.
  pose proof (sorted_perm Chord.sort_key (NoteCollection.notes self)) as Hp.
  change (fun x : Note.t => (Note.note x, Note.sharpness x)) with Chord.sort_key.
  destruct (Py.sorted Chord.sort_key (NoteCollection.notes self)) as [| y r].
  - apply Permutation_nil in Hp. contradiction.
  - cbn [NoteCollection.unique_loop list_contains bind app].
    destruct (NoteCollection.unique_loop [y] r) as [u | e] eqn:Hu; [| discriminate].
    apply unique_loop_extends in Hu as [suffix ->]. cbn [bind app].
    intros H. injection H as <-.
    change (NoteCollection.render_loop _ suffix)
      with (NoteCollection.render_loop ("Notes:" +:+ Py.newline) (y :: suffix)).
    rewrite render_loop_listing. cbn [listing].
    exists (Py.rstrip (" " +:+ text y +:+ listing suffix +:+ Py.newline)).
    rewrite <- strip_header. f_equal.
    rewrite !string_app_assoc. reflexivity.
Qed.

(** X11: [get_content] returns the text "Notes:", a line feed and
    "  Empty." exactly when the collection holds no note; for any other
    collection the text it returns starts with "Notes:", a line feed and
    the first bullet. *)
Theorem get_content_empty_message (self : NoteCollection.t) :
  (NoteCollection.get_content self = Ok ("Notes:" +:+ Py.newline +:+ "  Empty.")
   <-> NoteCollection.notes self = [])
  /\ (NoteCollection.notes self <> [] ->
      forall txt, NoteCollection.get_content self = Ok txt ->
                  exists rest, txt = "Notes:" +:+ Py.newline +:+ "  *" +:+ rest).
Proof.
  split; [| intros Hne txt; now apply get_content_nonempty].
  split.
  - intros H. destruct (NoteCollection.notes self) as [| x l] eqn:Hn; [reflexivity |].
    exfalso.
    destruct (get_content_nonempty self _ ltac:(rewrite Hn; discriminate) H) as [rest Hr].
    discriminate Hr.
  - destruct self as [l]. cbn [NoteCollection.notes]. intros ->. reflexivity.
Qed.

Lemma get_content_empty_message_witness :
  exists rest,
    "Notes:" +:+ Py.newline +:+ "  * A" = "Notes:" +:+ Py.newline +:+ "  *" +:+ rest.
Proof.
  apply (get_content_empty_message {| NoteCollection.notes := [Note.__init__ "A"] |}).
  - discriminate.
  - reflexivity.
Defined.

(** X12: for a collection of unaltered notes none of which equals a
    later one and whose texts do not end in white space, [get_content]
    returns "Notes:" followed by one line "  * text" per note, the notes
    taken in the order of their keys (note, then sharpness); no line feed
    follows the last line. *)
Theorem get_content_lists_sorted (self : NoteCollection.t) :
  NoteCollection.notes self <> [] ->
  unequal_pairs (NoteCollection.notes self) ->
  Forall unaltered (NoteCollection.notes self) ->
  Forall tidy (NoteCollection.notes self) ->
  let shown := Py.sorted Chord.sort_key (NoteCollection.notes self) in
  NoteCollection.get_content self = Ok ("Notes:" +:+ listing shown)
  /\ Sorted key_order shown
  /\ shown ≡ₚ NoteCollection.notes self.
Proof.
  intros Hne Hfop Hun Ht shown.
  pose proof (sorted_perm Chord.sort_key (NoteCollection.notes self)) as Hp.
  fold shown in Hp.
  split; [| split; [apply sorted_Sorted | exact Hp]].
  unfold NoteCollection.get_content.
  change (Py.sorted (fun x : Note.t => (Note.note x, Note.sharpness x))
            (NoteCollection.notes self)) with shown.
  rewrite (unique_loop_distinct shown []); cbn [app bind].
  - assert (Hs : shown <> []).
    { intros Hs. rewrite Hs in Hp. apply Permutation_nil in Hp. contradiction. }
    destruct shown as [| y r] eqn:Hshown; [contradiction |].
    rewrite render_loop_listing, strip_listing; [reflexivity | discriminate |].
    now rewrite Hp.
  - apply (unequal_pairs_perm (NoteCollection.notes self)); auto.
    now symmetry.
Qed.

Lemma get_content_lists_sorted_witness :
  NoteCollection.get_content
    {| NoteCollection.notes := [Note.__init__ "Lb"; Note.__init__ "C#"] |}
  = Ok ("Notes:" +:+ listing [Note.__init__ "C#"; Note.__init__ "Lb"]).
Proof.
  apply (get_content_lists_sorted
           {| NoteCollection.notes := [Note.__init__ "Lb"; Note.__init__ "C#"] |}).
  - discriminate.
  - repeat constructor.
  - repeat constructor.
  - repeat constructor; discriminate.
Defined.

(** ** Chord: what the constructor guarantees *)

Lemma two_or_three_length (a b : Note.t) (c : option Note.t) :
  length (two_or_three a b c) = 2 \/ length (two_or_three a b c) = 3.
Proof. destruct c; cbn; auto. Qed.

(** X13: a chord that the constructor returns holds the two or three
    notes it was given, ordered by key (note, then sharpness); their note
    strings are pairwise different and none of them is the chord name,
    which is stored as given. *)
Theorem chord_init_result (n1 n2 : Note.t) (name : string)
    (n3 : option Note.t) (c : Chord.t) :
  Chord.__init__ n1 n2 name n3 = Ok c ->
  Chord.notes c ≡ₚ two_or_three n1 n2 n3
  /\ (length (Chord.notes c) = 2 \/ length (Chord.notes c) = 3)
  /\ Sorted key_order (Chord.notes c)
  /\ NoDup (map Note.note (Chord.notes c))
  /\ (name ∉ map Note.note (Chord.notes c))
  /\ Chord.chord_name c = name.
Proof.
  intros H.
  assert (Hno : ~ (~ NoDup (map Note.note (two_or_three n1 n2 n3))
                   \/ name ∈ map Note.note (two_or_three n1 n2 n3))).
  { rewrite <- chord_init_raises, H. discriminate. }
  apply chord_init_Ok in H. subst c. cbn [Chord.notes Chord.chord_name].
  pose proof (sorted_perm Chord.sort_key (two_or_three n1 n2 n3)) as Hp.
  assert (Hm : map Note.note (Py.sorted Chord.sort_key (two_or_three n1 n2 n3))
               ≡ₚ map Note.note (two_or_three n1 n2 n3))
    by now apply Permutation_map.
  split; [exact Hp |].
  split; [rewrite (Permutation_length Hp); apply two_or_three_length |].
  split; [apply sorted_Sorted |].
  split; [| split; [| reflexivity]].
  - rewrite Hm. destruct (decide (NoDup (map Note.note (two_or_three n1 n2 n3)))); tauto.
  - rewrite Hm. tauto.
Qed.

Lemma chord_init_result_witness :
  Sorted key_order (Chord.notes amaj).
Proof.
  apply (chord_init_result (Note.__init__ "c") (Note.__init__ "a") "Amaj"
           (Some (Note.__init__ "b")) amaj).
  vm_compute. reflexivity.
Defined.

Lemma chord_init_of_perm (a b a' b' : Note.t) (c c' : option Note.t)
    (name : string) :
  two_or_three a b c ≡ₚ two_or_three a' b' c' ->
  Chord.__init__ a b name c = Chord.__init__ a' b' name c'.
Proof.
  intros Hp. unfold Chord.__init__.
  assert (Hm : map Note.note (two_or_three a b c)
               ≡ₚ map Note.note (two_or_three a' b' c'))
    by now apply Permutation_map.
  assert (Hm' : map Note.note (two_or_three a b c) ++ [name]
                ≡ₚ map Note.note (two_or_three a' b' c') ++ [name])
    by now rewrite Hm.
  rewrite (list_to_set_perm_L _ _ Hm), (list_to_set_perm_L _ _ Hm').
  rewrite (Permutation_length Hp), (Permutation_length Hm).
  now rewrite (sorted_of_perm _ _ Hp).
Qed.

(** X14: the constructor does not depend on the order of the notes: the
    same two or three notes in another order give the same chord, or the
    same exception. *)
Theorem chord_init_order_independent (name : string) :
  (forall a b, Chord.__init__ a b name None = Chord.__init__ b a name None)
  /\ (forall a b c a' b' c',
        [a; b; c] ≡ₚ [a'; b'; c'] ->
        Chord.__init__ a b name (Some c) = Chord.__init__ a' b' name (Some c')).
Proof.
  split.
  - intros a b. apply chord_init_of_perm. apply perm_swap.
  - intros a b c a' b' c' H. now apply chord_init_of_perm.
Qed.

Lemma chord_init_order_independent_witness :
  Chord.__init__ (Note.__init__ "A") (Note.__init__ "C#") "Amaj" (Some (Note.__init__ "E"))
  = Chord.__init__ (Note.__init__ "E") (Note.__init__ "A") "Amaj" (Some (Note.__init__ "C#")).
Proof.
  apply chord_init_order_independent.
  change ([Note.__init__ "A"; Note.__init__ "C#"; Note.__init__ "E"]
          ≡ₚ  Note.__init__ "E" :: [Note.__init__ "A"; Note.__init__ "C#"]).
  symmetry. apply (Permutation_cons_append [_; _]).
Defined.

(** ** Chord.__eq__ and the registry *)

Section AnyHash.
Variable py_hash : string * string -> Z.

Lemma matches_self (x : Note.t) :
  named x -> PySet.matches py_hash x x = Ok true.
Proof.
  intros Hx. unfold PySet.matches. rewrite Z.eqb_refl. now apply eq_refl_named.
Qed.

Lemma contains_app_found (t1 t2 : list Note.t) (x : Note.t) :
  PySet.contains py_hash t1 x = Ok true ->
  PySet.contains py_hash (t1 ++ t2) x = Ok true.
Proof.
  induction t1 as [| e t1 IH]; cbn [PySet.contains app]; [discriminate |].
  destruct (PySet.matches py_hash e x) as [[] |]; cbn [bind]; auto.
Qed.

Lemma contains_app_missing (t1 t2 : list Note.t) (x : Note.t) :
  PySet.contains py_hash t1 x = Ok false ->
  PySet.contains py_hash (t1 ++ t2) x = PySet.contains py_hash t2 x.
Proof.
  induction t1 as [| e t1 IH]; cbn [PySet.contains app]; [reflexivity |].
  destruct (PySet.matches py_hash e x) as [[] |]; cbn [bind]; auto; discriminate.
Qed.

Lemma add_all_holds (l table table' : list Note.t) :
  Forall named l ->
  PySet.add_all py_hash table l = Ok table' ->
  (forall x, PySet.contains py_hash table x = Ok true ->
             PySet.contains py_hash table' x = Ok true)
  /\ (forall x, x ∈ l -> PySet.contains py_hash table' x = Ok true)
  /\ (forall x, x ∈ table' -> x ∈ table \/ x ∈ l).
Proof.
  intros Hl. revert table.
  induction Hl as [| y r Hy Hr IH]; intros table; cbn [PySet.add_all].
  - intros H. injection H as <-. repeat split; auto.
    intros x Hx. now apply elem_of_nil in Hx.
  - unfold PySet.add.
    destruct (PySet.contains py_hash table y) as [[] |] eqn:Hc; cbn [bind];
      [| | discriminate]; intros H; destruct (IH _ H) as [H1 [H2 H3]].
    + repeat split; auto.
      * intros x [-> | Hx]%elem_of_cons; auto.
      * intros x Hx. destruct (H3 x Hx); [now left | right; now right].
    + repeat split.
      * intros x Hx. apply H1. now apply contains_app_found.
      * intros x [Hxy | Hx]%elem_of_cons; [subst x | now apply H2].
        apply H1. rewrite (contains_app_missing _ _ _ Hc).
        cbn [PySet.contains]. now rewrite (matches_self y Hy).
      * intros x Hx. destruct (H3 x Hx) as [Hx' | Hx']; [| right; now right].
        apply elem_of_app in Hx' as [Hx' | Hx']; [now left |].
        apply list_elem_of_singleton in Hx'. subst. right. left.
Qed.

Lemma issubset_all_found (a b : list Note.t) :
  (forall x, x ∈ a -> PySet.contains py_hash b x = Ok true) ->
  PySet.issubset py_hash a b = Ok true.
Proof.
  induction a as [| x a IH]; intros H; cbn [PySet.issubset]; [reflexivity |].
  rewrite (H x) by left. cbn [bind]. apply IH. intros y Hy. apply H. now right.
Qed.

Lemma chord_eq_same_list (c1 c2 : Chord.t) :
  chord_named c1 -> Chord.notes c1 = Chord.notes c2 ->
  Chord.__eq__ py_hash c1 c2 = Ok true.
Proof.
  intros Hn Heq. unfold Chord.__eq__. rewrite <- Heq. unfold PySet.of_list.
  destruct (add_all_named py_hash (Chord.notes c1) [] (List.Forall_nil _) Hn)
    as [a [Ha _]].
  rewrite Ha. cbn [bind]. unfold PySet.eq. rewrite Nat.eqb_refl.
  destruct (add_all_holds _ _ _ Hn Ha) as [_ [H2 H3]].
  apply issubset_all_found. intros x Hx.
  destruct (H3 x Hx) as [Hx' | Hx']; [now apply elem_of_nil in Hx' | now apply H2].
Qed.
End AnyHash.

(** X15: whatever the builtin hash, a chord whose notes have names
    compares equal to every chord with the same list of notes, itself
    included; so [add] refuses, with [ChordOverlapException] and without
    changing the registry, a chord built from the notes of a registered
    chord, in any order and under any name. *)
Theorem same_notes_overlap (py_hash : string * string -> Z)
    (self : Chords.t) (c c' : Chord.t) :
  Forall chord_named (Chords.chords self) -> chord_named c' ->
  c ∈ Chords.chords self -> Chord.notes c = Chord.notes c' ->
  Chord.__eq__ py_hash c c' = Ok true
  /\ Chords.add py_hash self c' = (self, Raise ChordOverlapException).
Proof.
  intros Hself Hc' Hin Heq.
  assert (Hc : chord_named c) by (rewrite Forall_forall in Hself; now apply Hself).
  pose proof (chord_eq_same_list py_hash c c' Hc Heq) as He.
  split; [exact He |].
  destruct (add_loop_overlap py_hash _ _ Hself Hc') as [H1 _].
  unfold Chords.add. rewrite (proj2 H1); [reflexivity |]. now exists c.
Qed.

Lemma same_notes_overlap_witness :
  Chords.add sample_hash {| Chords.chords := [amaj; e5] |} emaj7add9
  = ({| Chords.chords := [amaj; e5] |}, Raise ChordOverlapException).
Proof.
  apply (same_notes_overlap sample_hash {| Chords.chords := [amaj; e5] |} e5 emaj7add9).
  - repeat constructor; discriminate.
  - repeat constructor; discriminate.
  - right. left.
  - reflexivity.
Defined.


(** X16: the registry never holds two chords of which the earlier
    compares equal to the later: for chords of named notes, [add] keeps
    this, whether it appends the chord or raises. *)
Theorem registry_keeps_unequal_chords (py_hash : string * string -> Z)
    (self : Chords.t) (c : Chord.t) :
  Forall chord_named (Chords.chords self) -> chord_named c ->
  unequal_chords py_hash (Chords.chords self) ->
  unequal_chords py_hash (Chords.chords (Chords.add py_hash self c).1)
  /\ Forall chord_named (Chords.chords (Chords.add py_hash self c).1).
Proof.
  intros Hself Hc Hfop.
  destruct (add_loop_overlap py_hash _ _ Hself Hc) as [_ [H2 _]].
  unfold Chords.add.
  destruct (Chords.add_loop py_hash (Chords.chords self) c) as [[] | e];
    cbn [fst Chords.chords]; [| auto].
  split; [| apply Forall_app; split; [exact Hself | now constructor]].
  apply FOP_app. repeat split; [exact Hfop | repeat constructor |].
  eapply Forall_impl; [apply H2; reflexivity |].
  intros a Ha. now repeat constructor.
Qed.

Lemma registry_keeps_unequal_chords_witness :
  unequal_chords sample_hash
    (Chords.chords (Chords.add sample_hash {| Chords.chords := [amaj] |} e5).1).
Proof.
  apply (registry_keeps_unequal_chords sample_hash {| Chords.chords := [amaj] |} e5).
  - repeat constructor; discriminate.
  - repeat constructor; discriminate.
  - repeat constructor.
Defined.

Lemma get_loop_app (q : gset string) (l : list Chord.t) (c : Chord.t) :
  Chords.get_loop q (l ++ [c])
  = match Chords.get_loop q l with
    | Some found => Some found
    | None => if bool_decide (q = Chords.note_names_set (Chord.notes c))
              then Some c else None
    end.
Proof.
  induction l as [| e l IH]; cbn [app Chords.get_loop]; [reflexivity |].
  destruct (bool_decide (q = Chords.note_names_set (Chord.notes e)));
    [reflexivity | exact IH].
Qed.

(** X17: registering a chord never changes the answer of a query that
    already had one; a query without an answer gets the new chord exactly
    when [add] stored it and its set of note texts is the set of the
    query. *)
Theorem add_keeps_answers (py_hash : string * string -> Z) (self : Chords.t)
    (c : Chord.t) (a b : Note.t) (c3 : option Note.t) :
  (forall found, Chords.get self a b c3 = Some found ->
                 Chords.get (Chords.add py_hash self c).1 a b c3 = Some found)
  /\ (Chords.get self a b c3 = None ->
      forall found, Chords.get (Chords.add py_hash self c).1 a b c3 = Some found ->
                    found = c
                    /\ (Chords.add py_hash self c).2 = Ok tt
                    /\ Chords.note_names_set (Chord.notes c)
                       = Chords.note_names_set (two_or_three a b c3)).
Proof.
  unfold Chords.add, Chords.get.
  destruct (Chords.add_loop py_hash (Chords.chords self) c) as [[] | e];
    cbn [fst snd Chords.chords].
  - rewrite get_loop_app. split.
    + intros found ->. reflexivity.
    + intros ->.
      destruct (bool_decide_reflect
                  (Chords.note_names_set (two_or_three a b c3)
                   = Chords.note_names_set (Chord.notes c))) as [Hq | Hq];
        [| discriminate].
      intros found H. injection H as <-. auto.
  - split; [auto |]. intros -> found H. discriminate H.
Qed.

Lemma add_keeps_answers_witness :
  Chords.get (Chords.add sample_hash {| Chords.chords := [amaj] |} e5).1
    (Note.__init__ "c") (Note.__init__ "b") (Some (Note.__init__ "a"))
  = Some amaj.
Proof.
  apply (add_keeps_answers sample_hash {| Chords.chords := [amaj] |} e5).
  vm_compute. reflexivity.
Defined.










